(** * virtual-fido: the USB device and the U2F application layer

    A shallow embedding of [usb/usb_device.go] and [virtual_fido/u2f.go].

    Conventions.
    - A Go [uint8], [uint16] or [uint32] is a [Z]; every place where Go
      truncates an integer ([uint8(len(..))], [uint16] addition) writes the
      [mod] out.
    - A Go [[]byte] is a [list Z]; where the source tests a slice against
      [nil] the field is an [option (list Z)] with [None] for [nil].
    - A Go function that may [panic] returns an [Exec]; the panic carries the
      fixed text of its message, or the name of the helper that raised it
      (formatted values and logging are not modelled). *)

From Stdlib Require Import ZArith List Bool String Ascii Lia.
Import ListNotations.
Open Scope Z_scope.

Definition bytes := list Z.

(** ** Results of code that may panic *)

Inductive Exec (A : Type) : Type :=
| Ok (a : A)
| Panic (msg : string).
Arguments Ok {A} a.
Arguments Panic {A} msg.

Definition exec_bind {A B} (x : Exec A) (f : A -> Exec B) : Exec B :=
  match x with
  | Ok a => f a
  | Panic m => Panic m
  end.

(** ** util: fixed-width integer encodings

    Modelled from the spec: [util.ToLE], [util.ToBE], [util.Concat] and
    [util.Flatten] are not under src/.  The spec has the USB descriptors
    little-endian and packed, the status words and the counter big-endian,
    and the responses the concatenation of their parts. *)

(** [util.ToLE] at [uint8]. *)
Definition ToLE8 (v : Z) : bytes := [v mod 256].

(** [util.ToLE] at [uint16]. *)
Definition ToLE16 (v : Z) : bytes := [v mod 256; (v / 256) mod 256].

(** [util.ToBE] at [uint16]. *)
Definition ToBE16 (v : Z) : bytes := [(v / 256) mod 256; v mod 256].

(** [util.ToBE] at [uint32]. *)
Definition ToBE32 (v : Z) : bytes :=
  [(v / 16777216) mod 256; (v / 65536) mod 256; (v / 256) mod 256; v mod 256].

(** [util.Concat] and [util.Flatten]. *)
Definition Concat (a b : bytes) : bytes := a ++ b.
Definition Flatten (parts : list bytes) : bytes := List.concat parts.

(** [len] of a slice, as a [Z]. *)
Definition len {A} (l : list A) : Z := Z.of_nat (List.length l).

(** Modelled from the spec: [util.Utf16encode] is not under src/; the spec
    says the strings of the table are UTF-16LE encoded.  The table only holds
    ASCII text, so every character is its code followed by a zero byte. *)
Fixpoint Utf16encode (s : string) : bytes :=
  match s with
  | EmptyString => []
  | String c rest => Z.of_nat (nat_of_ascii c) :: 0 :: Utf16encode rest
  end.

(** * The USB device *)

Module USB.

(** ** Constants declared outside [usb_device.go]

    Modelled from the spec: the descriptor-type byte codes are those of the
    data model (1, 2, 3, 4, 5, 0x21, 0x22); the request codes, recipients,
    attribute bits and the language id are the values of the USB 2.0 and
    HID 1.11 standards the spec refers to. *)

Definition usbDescriptorDevice : Z := 1.
Definition usbDescriptorConfiguration : Z := 2.
Definition usbDescriptorString : Z := 3.
Definition usbDescriptorInterface : Z := 4.
Definition usbDescriptorEndpoint : Z := 5.
Definition usbDescriptorHID : Z := 0x21.
Definition usbDescriptorHIDReport : Z := 0x22.

Definition usbRequestGetStatus : Z := 0.
Definition usbRequestGetDescriptor : Z := 6.
Definition usbRequestSetConfiguration : Z := 9.

Definition usbHIDRequestGetDescriptor : Z := 6.
Definition usbHIDRequestSetIdle : Z := 10.
Definition usbHIDRequestSetProtocol : Z := 11.

Definition usbRequestRecipientDevice : Z := 0.
Definition usbRequestRecipientInterface : Z := 1.

Definition usbConfigAttributeBase : Z := 0x80.
Definition usbConfigAttributeSelfPowered : Z := 0x40.
Definition usbInterfaceClassHID : Z := 3.
Definition usbLangIDEngUSA : Z := 0x0409.

(** ** Descriptor structs

    The struct declarations are outside [usb_device.go]; the fields and their
    order are those of the struct literals in the source, the widths those of
    the data model of the spec (a [W..] or [Bcd..]/[ID..] field is a
    [uint16], every other one a [uint8]). *)

Record usbSetupPacket := {
  BmRequestType : Z;
  BRequest : Z;
  WValue : Z;
  WIndex : Z;
  WLength : Z
}.

Record usbDeviceDescriptor := {
  dev_BLength : Z;
  dev_BDescriptorType : Z;
  dev_BcdUSB : Z;
  dev_BDeviceClass : Z;
  dev_BDeviceSubclass : Z;
  dev_BDeviceProtocol : Z;
  dev_BMaxPacketSize : Z;
  dev_IDVendor : Z;
  dev_IDProduct : Z;
  dev_BcdDevice : Z;
  dev_IManufacturer : Z;
  dev_IProduct : Z;
  dev_ISerialNumber : Z;
  dev_BNumConfigurations : Z
}.

Record usbConfigurationDescriptor := {
  cfg_BLength : Z;
  cfg_BDescriptorType : Z;
  cfg_WTotalLength : Z;
  cfg_BNumInterfaces : Z;
  cfg_BConfigurationValue : Z;
  cfg_IConfiguration : Z;
  cfg_BmAttributes : Z;
  cfg_BMaxPower : Z
}.

Record usbInterfaceDescriptor := {
  itf_BLength : Z;
  itf_BDescriptorType : Z;
  itf_BInterfaceNumber : Z;
  itf_BAlternateSetting : Z;
  itf_BNumEndpoints : Z;
  itf_BInterfaceClass : Z;
  itf_BInterfaceSubclass : Z;
  itf_BInterfaceProtocol : Z;
  itf_IInterface : Z
}.

Record usbHIDDescriptor := {
  hid_BLength : Z;
  hid_BDescriptorType : Z;
  hid_BcdHID : Z;
  hid_BCountryCode : Z;
  hid_BNumDescriptors : Z;
  hid_BClassDescriptorType : Z;
  hid_WReportDescriptorLength : Z
}.

Record usbEndpointDescriptor := {
  ep_BLength : Z;
  ep_BDescriptorType : Z;
  ep_BEndpointAddress : Z;
  ep_BmAttributes : Z;
  ep_WMaxPacketSize : Z;
  ep_BInterval : Z
}.

Record usbStringDescriptorHeader := {
  str_BLength : Z;
  str_BDescriptorType : Z
}.

(** [util.ToLE] at each struct: the fields in order, packed, little-endian. *)

Definition ToLE_device (d : usbDeviceDescriptor) : bytes :=
  ToLE8 (dev_BLength d) ++ ToLE8 (dev_BDescriptorType d) ++
  ToLE16 (dev_BcdUSB d) ++ ToLE8 (dev_BDeviceClass d) ++
  ToLE8 (dev_BDeviceSubclass d) ++ ToLE8 (dev_BDeviceProtocol d) ++
  ToLE8 (dev_BMaxPacketSize d) ++ ToLE16 (dev_IDVendor d) ++
  ToLE16 (dev_IDProduct d) ++ ToLE16 (dev_BcdDevice d) ++
  ToLE8 (dev_IManufacturer d) ++ ToLE8 (dev_IProduct d) ++
  ToLE8 (dev_ISerialNumber d) ++ ToLE8 (dev_BNumConfigurations d).

Definition ToLE_configuration (c : usbConfigurationDescriptor) : bytes :=
  ToLE8 (cfg_BLength c) ++ ToLE8 (cfg_BDescriptorType c) ++
  ToLE16 (cfg_WTotalLength c) ++ ToLE8 (cfg_BNumInterfaces c) ++
  ToLE8 (cfg_BConfigurationValue c) ++ ToLE8 (cfg_IConfiguration c) ++
  ToLE8 (cfg_BmAttributes c) ++ ToLE8 (cfg_BMaxPower c).

Definition ToLE_interface (i : usbInterfaceDescriptor) : bytes :=
  ToLE8 (itf_BLength i) ++ ToLE8 (itf_BDescriptorType i) ++
  ToLE8 (itf_BInterfaceNumber i) ++ ToLE8 (itf_BAlternateSetting i) ++
  ToLE8 (itf_BNumEndpoints i) ++ ToLE8 (itf_BInterfaceClass i) ++
  ToLE8 (itf_BInterfaceSubclass i) ++ ToLE8 (itf_BInterfaceProtocol i) ++
  ToLE8 (itf_IInterface i).

Definition ToLE_hid (h : usbHIDDescriptor) : bytes :=
  ToLE8 (hid_BLength h) ++ ToLE8 (hid_BDescriptorType h) ++
  ToLE16 (hid_BcdHID h) ++ ToLE8 (hid_BCountryCode h) ++
  ToLE8 (hid_BNumDescriptors h) ++ ToLE8 (hid_BClassDescriptorType h) ++
  ToLE16 (hid_WReportDescriptorLength h).

Definition ToLE_endpoint (e : usbEndpointDescriptor) : bytes :=
  ToLE8 (ep_BLength e) ++ ToLE8 (ep_BDescriptorType e) ++
  ToLE8 (ep_BEndpointAddress e) ++ ToLE8 (ep_BmAttributes e) ++
  ToLE16 (ep_WMaxPacketSize e) ++ ToLE8 (ep_BInterval e).

Definition ToLE_stringHeader (h : usbStringDescriptorHeader) : bytes :=
  ToLE8 (str_BLength h) ++ ToLE8 (str_BDescriptorType h).

(** Modelled from the spec: [util.SizeOf] is not under src/.  The data model
    of the spec fixes the size of each descriptor: device 18, configuration
    9, interface 9, HID 9, endpoint 7; the string header is its two
    [uint8] fields. *)
Definition SizeOf_usbDeviceDescriptor : Z := 18.
Definition SizeOf_usbConfigurationDescriptor : Z := 9.
Definition SizeOf_usbInterfaceDescriptor : Z := 9.
Definition SizeOf_usbHIDDescriptor : Z := 9.
Definition SizeOf_usbEndpointDescriptor : Z := 7.
Definition SizeOf_usbStringDescriptorHeader : Z := 2.

(** Modelled from the spec: [recipient] and [getDescriptorTypeAndIndex] are
    not under src/.  The setup-packet decoder of the spec gives
    [recipient() = bmRequestType & 0x1F] and splits [wValue] as
    (type = high byte, index = low byte). *)
Definition recipient (setup : usbSetupPacket) : Z :=
  Z.land (BmRequestType setup) 31.

Definition getDescriptorTypeAndIndex (wValue : Z) : Z * Z :=
  (Z.shiftr wValue 8 mod 256, wValue mod 256).

(** ** The descriptor tables *)

Definition getDeviceDescriptor : usbDeviceDescriptor :=
  {| dev_BLength := SizeOf_usbDeviceDescriptor;
     dev_BDescriptorType := usbDescriptorDevice;
     dev_BcdUSB := 0x0110;
     dev_BDeviceClass := 0;
     dev_BDeviceSubclass := 0;
     dev_BDeviceProtocol := 0;
     dev_BMaxPacketSize := 64;
     dev_IDVendor := 0;
     dev_IDProduct := 0;
     dev_BcdDevice := 0x1;
     dev_IManufacturer := 1;
     dev_IProduct := 2;
     dev_ISerialNumber := 3;
     dev_BNumConfigurations := 1 |}.

Definition getConfigurationDescriptor (configLength : Z)
  : usbConfigurationDescriptor :=
  let totalLength := (SizeOf_usbConfigurationDescriptor + configLength) mod 65536 in
  {| cfg_BLength := SizeOf_usbConfigurationDescriptor;
     cfg_BDescriptorType := usbDescriptorConfiguration;
     cfg_WTotalLength := totalLength;
     cfg_BNumInterfaces := 1;
     cfg_BConfigurationValue := 0;
     cfg_IConfiguration := 4;
     cfg_BmAttributes := Z.lor usbConfigAttributeBase usbConfigAttributeSelfPowered;
     cfg_BMaxPower := 0 |}.

Definition getInterfaceDescriptor : usbInterfaceDescriptor :=
  {| itf_BLength := SizeOf_usbInterfaceDescriptor;
     itf_BDescriptorType := usbDescriptorInterface;
     itf_BInterfaceNumber := 0;
     itf_BAlternateSetting := 0;
     itf_BNumEndpoints := 2;
     itf_BInterfaceClass := usbInterfaceClassHID;
     itf_BInterfaceSubclass := 0;
     itf_BInterfaceProtocol := 0;
     itf_IInterface := 5 |}.

Definition getHIDDescriptor (hidReportDescriptor : bytes) : usbHIDDescriptor :=
  {| hid_BLength := SizeOf_usbHIDDescriptor;
     hid_BDescriptorType := usbDescriptorHID;
     hid_BcdHID := 0x0101;
     hid_BCountryCode := 0;
     hid_BNumDescriptors := 1;
     hid_BClassDescriptorType := usbDescriptorHIDReport;
     hid_WReportDescriptorLength := len hidReportDescriptor mod 65536 |}.

Definition getHIDReport : bytes :=
  [6; 208; 241; 9; 1; 161; 1; 9; 32; 20; 37; 255; 117; 8; 149; 64; 129; 2;
   9; 33; 20; 37; 255; 117; 8; 149; 64; 145; 2; 192].

Definition getEndpointDescriptors : list usbEndpointDescriptor :=
  let length := SizeOf_usbEndpointDescriptor in
  [ {| ep_BLength := length;
       ep_BDescriptorType := usbDescriptorEndpoint;
       ep_BEndpointAddress := 0x81;
       ep_BmAttributes := 0x03;
       ep_WMaxPacketSize := 64;
       ep_BInterval := 255 |};
    {| ep_BLength := length;
       ep_BDescriptorType := usbDescriptorEndpoint;
       ep_BEndpointAddress := 0x02;
       ep_BmAttributes := 0x03;
       ep_WMaxPacketSize := 64;
       ep_BInterval := 255 |} ].

Definition getStringDescriptor (index : Z) : Exec bytes :=
  if index =? 0 then Ok (ToLE16 usbLangIDEngUSA)
  else if index =? 1 then Ok (Utf16encode "No Company")
  else if index =? 2 then Ok (Utf16encode "Virtual FIDO")
  else if index =? 3 then Ok (Utf16encode "No Serial Number")
  else if index =? 4 then Ok (Utf16encode "String 4")
  else if index =? 5 then Ok (Utf16encode "Default Interface")
  else Panic "Invalid string descriptor index".

(** ** Control transfers

    A handler returns [Ok None] where the source returns [nil]. *)

Definition getDescriptor (descriptorType index : Z) : Exec (option bytes) :=
  if descriptorType =? usbDescriptorDevice then
    let descriptor := getDeviceDescriptor in
    Ok (Some (ToLE_device descriptor))
  else if descriptorType =? usbDescriptorConfiguration then
    let interfaceDescriptor := getInterfaceDescriptor in
    let buffer := ToLE_interface interfaceDescriptor in
    let hid := getHIDDescriptor getHIDReport in
    let buffer := buffer ++ ToLE_hid hid in
    let endpoints := getEndpointDescriptors in
    let buffer :=
      fold_left (fun buf endpoint => buf ++ ToLE_endpoint endpoint)
                endpoints buffer in
    let configBytes := buffer in
    let config := getConfigurationDescriptor (len configBytes mod 65536) in
    Ok (Some (Concat (ToLE_configuration config) configBytes))
  else if descriptorType =? usbDescriptorString then
    exec_bind (getStringDescriptor index) (fun message =>
    let header := {| str_BLength := 0;
                     str_BDescriptorType := usbDescriptorString |} in
    let header :=
      {| str_BLength :=
           (SizeOf_usbStringDescriptorHeader mod 256 + len message mod 256) mod 256;
         str_BDescriptorType := str_BDescriptorType header |} in
    Ok (Some (Concat (ToLE_stringHeader header) message)))
  else Panic "Invalid Descriptor type".

Definition handleDeviceRequest (setup : usbSetupPacket) : Exec (option bytes) :=
  if BRequest setup =? usbRequestGetDescriptor then
    let '(descriptorType, descriptorIndex) :=
      getDescriptorTypeAndIndex (WValue setup) in
    getDescriptor descriptorType descriptorIndex
  else if BRequest setup =? usbRequestSetConfiguration then Ok None
  else if BRequest setup =? usbRequestGetStatus then Ok (Some [1])
  else Panic "Invalid CMD_SUBMIT bRequest".

Definition handleInterfaceRequest (setup : usbSetupPacket) : Exec (option bytes) :=
  if BRequest setup =? usbHIDRequestSetIdle then Ok None
  else if BRequest setup =? usbHIDRequestSetProtocol then Ok None
  else if BRequest setup =? usbHIDRequestGetDescriptor then
    let '(descriptorType, descriptorIndex) :=
      getDescriptorTypeAndIndex (WValue setup) in
    if descriptorType =? usbDescriptorHIDReport then Ok (Some getHIDReport)
    else Panic "Invalid USB Interface descriptor"
  else Panic "Invalid USB Interface bRequest".

Definition handleControlMessage (setup : usbSetupPacket) : Exec (option bytes) :=
  if recipient setup =? usbRequestRecipientDevice then handleDeviceRequest setup
  else if recipient setup =? usbRequestRecipientInterface then
    handleInterfaceRequest setup
  else Panic "Invalid CMD_SUBMIT recipient".

End USB.

(** * The U2F application layer *)

Module U2F.

(** ** Constants and records of [u2f.go] *)

Definition u2f_COMMAND_REGISTER : Z := 0x01.
Definition u2f_COMMAND_AUTHENTICATE : Z := 0x02.
Definition u2f_COMMAND_VERSION : Z := 0x03.

Definition u2f_SW_NO_ERROR : Z := 0x9000.
Definition u2f_SW_CONDITIONS_NOT_SATISFIED : Z := 0x6985.
Definition u2f_SW_WRONG_DATA : Z := 0x6A80.
Definition u2f_SW_WRONG_LENGTH : Z := 0x6700.
Definition u2f_SW_CLA_NOT_SUPPORTED : Z := 0x6E00.
Definition u2f_SW_INS_NOT_SUPPORTED : Z := 0x6D00.

Definition u2f_AUTH_CONTROL_CHECK_ONLY : Z := 0x07.
Definition u2f_AUTH_CONTROL_ENFORCE_USER_PRESENCE_AND_SIGN : Z := 0x03.
Definition u2f_AUTH_CONTROL_SIGN : Z := 0x08.

Record u2fMessageHeader := {
  Cla : Z;
  Command : Z;
  Param1 : Z;
  Param2 : Z
}.

(** A field is [None] when the Go slice is [nil]. *)
Record KeyHandle := {
  PrivateKey : option bytes;
  ApplicationID : option bytes
}.

(** [ecdsa.PrivateKey]: the secret scalar and the two coordinates of
    [PublicKey]. *)
Record ecdsa_PrivateKey := {
  D : Z;
  X : Z;
  Y : Z
}.

(** The bytes of a slice that may be [nil]: [len] and [bytes.Compare] see a
    [nil] slice as an empty one. *)
Definition slice_bytes (s : option bytes) : bytes :=
  match s with
  | Some b => b
  | None => []
  end.

(** [s == nil]. *)
Definition is_nil (s : option bytes) : bool :=
  match s with
  | Some _ => false
  | None => true
  end.

(** [bytes.Compare(a, b) != 0]. *)
Fixpoint bytes_differ (a b : bytes) : bool :=
  match a, b with
  | [], [] => false
  | x :: a', y :: b' => negb (x =? y) || bytes_differ a' b'
  | _, _ => true
  end.

(** ** Readers over a [bytes.Buffer]

    Modelled from the spec: [util.Read], [util.ReadBE] and [util.ReadLE] are
    not under src/.  The spec has them read the next bytes of the APDU: the
    buffer is the list of unread bytes, and a read returns what it read with
    the rest of the buffer.  On a buffer that cannot serve the read the spec
    is silent and the model follows Go: a fixed-width read ([binary.Read])
    fails and the helper panics; [util.Read(buffer, n)] makes a slice of [n]
    bytes and fills it with one [Read] of the buffer, so nothing is read for
    [n = 0], an empty buffer fails, and a buffer shorter than [n] leaves the
    end of the slice zero.  The theorems below only meet reads that the
    buffer can serve. *)

Definition Read (buffer : bytes) (length : Z) : Exec (bytes * bytes) :=
  let n := Z.to_nat length in
  match n, buffer with
  | O, _ => Ok ([], buffer)
  | _, [] => Panic "util.Read"
  | _, _ =>
      let got := firstn n buffer in
      Ok (got ++ repeat 0 (n - List.length got), skipn n buffer)
  end.

Definition ReadBE_header (buffer : bytes) : Exec (u2fMessageHeader * bytes) :=
  match buffer with
  | cla :: ins :: p1 :: p2 :: rest =>
      Ok ({| Cla := cla; Command := ins; Param1 := p1; Param2 := p2 |}, rest)
  | _ => Panic "util.ReadBE"
  end.

Definition ReadBE16 (buffer : bytes) : Exec (Z * bytes) :=
  match buffer with
  | hi :: lo :: rest => Ok (hi * 256 + lo, rest)
  | _ => Panic "util.ReadBE"
  end.

Definition ReadLE8 (buffer : bytes) : Exec (Z * bytes) :=
  match buffer with
  | b :: rest => Ok (b, rest)
  | _ => Panic "util.ReadLE"
  end.

(** Slice expressions [s[:n]] and [s[n:]]; the slice is taken to have no
    spare capacity, as one made by [util.Read] or a literal has. *)
Definition slice_to (s : bytes) (n : Z) : Exec bytes :=
  if n <=? len s then Ok (firstn (Z.to_nat n) s)
  else Panic "slice bounds out of range".

Definition slice_from (s : bytes) (n : Z) : Exec bytes :=
  if n <=? len s then Ok (skipn (Z.to_nat n) s)
  else Panic "slice bounds out of range".

Notation "x <-! e ;; k" := (exec_bind e (fun x => k))
  (at level 61, e at next level, right associativity).
Notation "' p <-! e ;; k" := (exec_bind e (fun x => let p := x in k))
  (at level 61, p pattern, e at next level, right associativity).

Definition decodeU2FMessage (messageBytes : bytes)
  : Exec (u2fMessageHeader * bytes * Z) :=
  let buffer := messageBytes in
  '(header, buffer) <-! ReadBE_header buffer ;;
  if len buffer =? 0 then Ok (header, [], 0)
  else
    '(marker, buffer) <-! Read buffer 1 ;;
    if negb (nth 0 marker 0 =? 0) then Panic "Invalid U2F Payload length"
    else
      '(length, buffer) <-! ReadBE16 buffer ;;
      if len buffer =? 0 then Ok (header, [], length)
      else
        '(request, buffer) <-! Read buffer length ;;
        if len buffer =? 0 then Ok (header, request, 0)
        else
          '(responseLength, buffer) <-! ReadBE16 buffer ;;
          Ok (header, request, responseLength).

(** ** [elliptic.Marshal] on P-256

    The standard library first checks the point ([panicIfNotOnCurve]): the
    pair (0, 0), by convention the point at infinity, passes; any other
    point has to be on the curve ([IsOnCurve]: both coordinates in [0, p)
    and y^2 = x^3 - 3x + b modulo p) or [Marshal] panics.  It then writes
    the point as [0x04 ‖ X ‖ Y] with each coordinate filled into 32 bytes by
    [big.Int.FillBytes], which takes the absolute value and panics when it
    does not fit. *)

(** The prime and the constant term of P-256. *)
Definition P256_p : Z := 2 ^ 256 - 2 ^ 224 + 2 ^ 192 + 2 ^ 96 - 1.
Definition P256_b : Z :=
  0x5ac635d8aa3a93e7b3ebbd55769886bc651d06b0cc53b0f63bce3c3e27d2604b.

Definition IsOnCurve (x y : Z) : bool :=
  (0 <=? x) && (x <? P256_p) && (0 <=? y) && (y <? P256_p)
  && ((y * y) mod P256_p =? (x * x * x - 3 * x + P256_b) mod P256_p).

Definition panicIfNotOnCurve (x y : Z) : Exec unit :=
  if (x =? 0) && (y =? 0) then Ok tt
  else if IsOnCurve x y then Ok tt
  else Panic "crypto/elliptic: attempted operation on invalid point".

Fixpoint be_bytes (n : nat) (v : Z) : bytes :=
  match n with
  | O => []
  | S k => (v / 256 ^ Z.of_nat k) mod 256 :: be_bytes k v
  end.

(** The number a big-endian byte string stands for. *)
Definition from_be (l : bytes) : Z := fold_left (fun acc b => acc * 256 + b) l 0.

Definition FillBytes (n : nat) (v : Z) : Exec bytes :=
  if Z.abs v <? 256 ^ Z.of_nat n then Ok (be_bytes n (Z.abs v))
  else Panic "math/big: buffer too small to fit value".

Definition elliptic_Marshal (x y : Z) : Exec bytes :=
  _ <-! panicIfNotOnCurve x y ;;
  xs <-! FillBytes 32 x ;;
  ys <-! FillBytes 32 y ;;
  Ok (4 :: xs ++ ys).

(** ** The client port and the code the server calls

    [W] is the state of everything outside the server: the client port (its
    counter, its user) and the randomness the sealing and signing draw.  A
    call takes that state and returns it with its result. *)

Class FIDOClient (W : Type) := {
  SealingEncryptionKey : W -> bytes * W;
  NewPrivateKey : W -> ecdsa_PrivateKey * W;
  CreateAttestationCertificiate : ecdsa_PrivateKey -> W -> bytes * W;
  ApproveU2FRegistration : KeyHandle -> W -> bool * W;
  ApproveU2FAuthentication : KeyHandle -> W -> bool * W;
  NewAuthenticationCounterId : W -> Z * W
}.

(** The functions of the repository and of its libraries that [u2f.go] calls
    and that are not under src/: [seal], [open] and [sign] of the package,
    [x509.MarshalECPrivateKey] and [x509.ParseECPrivateKey],
    [util.MarshalCBOR] and [cbor.Unmarshal] at the two structs.  They are
    parameters.  [encryptedBox] is the sealed envelope, opaque to the
    server.  A function that returns a value and an [error] returns [None]
    for an error.  [open] returns the data alone in the source
    ([data := open(key, box)]), so it is an [Exec]: it returns data or it
    does not return. *)
Class Crypto (W : Type) := {
  encryptedBox : Type;
  seal : bytes -> bytes -> W -> encryptedBox * W;
  open : bytes -> encryptedBox -> Exec bytes;
  sign : ecdsa_PrivateKey -> bytes -> W -> bytes * W;
  x509_MarshalECPrivateKey : ecdsa_PrivateKey -> option bytes;
  x509_ParseECPrivateKey : bytes -> option ecdsa_PrivateKey;
  MarshalCBOR_KeyHandle : KeyHandle -> bytes;
  Unmarshal_KeyHandle : bytes -> option KeyHandle;
  MarshalCBOR_encryptedBox : encryptedBox -> bytes;
  Unmarshal_encryptedBox : bytes -> option encryptedBox
}.

(** Modelled from the spec: [open] is not under src/.  The source takes its
    result as the data alone, with no error beside it, and the spec has a
    key handle that fails the authenticated decryption answered
    SW_WRONG_DATA, as one that fails the CBOR decoding is: an opening that
    fails hands back no data. *)
Definition failed_opening : bytes := [].

(** The calls that reach the client port, the sealing and the signing, in
    the order the server makes them. *)
Inductive Call : Type :=
| CallSealingEncryptionKey
| CallNewPrivateKey
| CallCreateAttestationCertificiate
| CallApproveU2FRegistration
| CallApproveU2FAuthentication
| CallNewAuthenticationCounterId
| CallSeal
| CallSign.

Section Server.

Context {W : Type} {client : FIDOClient W} {crypto : Crypto W}.

(** ** The monad of the server: outside state, call log, panics *)

Definition State : Type := W * list Call.

Definition M (A : Type) : Type := State -> Exec A * State.

Definition ret {A} (a : A) : M A := fun s => (Ok a, s).

Definition panic {A} (msg : string) : M A := fun s => (Panic msg, s).

Definition bind {A B} (m : M A) (f : A -> M B) : M B :=
  fun s =>
    match fst (m s) with
    | Ok a => f a (snd (m s))
    | Panic msg => (Panic msg, snd (m s))
    end.

Definition lift {A} (x : Exec A) : M A := fun s => (x, s).

Definition perform {A} (c : Call) (op : W -> A * W) : M A :=
  fun s => (Ok (fst (op (fst s))), (snd (op (fst s)), snd s ++ [c])).

Notation "x <- e ;; k" := (bind e (fun x => k))
  (at level 61, e at next level, right associativity).
Notation "' p <- e ;; k" := (bind e (fun x => let p := x in k))
  (at level 61, p pattern, e at next level, right associativity).

(** Modelled from the spec: [util.Assert] and [util.CheckErr] are not under
    src/.  The spec has a failed internal check abort the device: they panic
    with their message, on a false condition and on an error. *)
Definition Assert (cond : bool) (msg : string) : M unit :=
  if cond then ret tt else panic msg.

Definition CheckErr {A} (r : option A) (msg : string) : M A :=
  match r with
  | Some a => ret a
  | None => panic msg
  end.

(** ** Key handles *)

Definition sealKeyHandle (keyHandle : KeyHandle) : M bytes :=
  key <- perform CallSealingEncryptionKey SealingEncryptionKey ;;
  box <- perform CallSeal (seal key (MarshalCBOR_KeyHandle keyHandle)) ;;
  ret (MarshalCBOR_encryptedBox box).

(** The result is [None] where the source returns an error. *)
Definition openKeyHandle (boxBytes : bytes) : M (option KeyHandle) :=
  match Unmarshal_encryptedBox boxBytes with
  | None => ret None
  | Some box =>
      key <- perform CallSealingEncryptionKey SealingEncryptionKey ;;
      data <- lift (open key box) ;;
      match Unmarshal_KeyHandle data with
      | None => ret None
      | Some keyHandle => ret (Some keyHandle)
      end
  end.

(** ** REGISTER *)

Definition handleU2FRegister (header : u2fMessageHeader) (request : bytes)
  : M bytes :=
  challenge <- lift (slice_to request 32) ;;
  application <- lift (slice_from request 32) ;;
  _ <- Assert (len challenge =? 32) "Challenge is not 32 bytes" ;;
  _ <- Assert (len application =? 32) "Application is not 32 bytes" ;;
  privateKey <- perform CallNewPrivateKey NewPrivateKey ;;
  encodedPublicKey <- lift (elliptic_Marshal (X privateKey) (Y privateKey)) ;;
  encodedPrivateKey <-
    CheckErr (x509_MarshalECPrivateKey privateKey) "Could not encode private key" ;;
  let unencryptedKeyHandle :=
    {| PrivateKey := Some encodedPrivateKey;
       ApplicationID := Some application |} in
  keyHandle <- sealKeyHandle unencryptedKeyHandle ;;
  approved <- perform CallApproveU2FRegistration
                (ApproveU2FRegistration unencryptedKeyHandle) ;;
  if negb approved then ret (ToBE16 u2f_SW_CONDITIONS_NOT_SATISFIED)
  else
    cert <- perform CallCreateAttestationCertificiate
              (CreateAttestationCertificiate privateKey) ;;
    let signatureDataBytes :=
      Flatten [[0]; application; challenge; keyHandle; encodedPublicKey] in
    signature <- perform CallSign (sign privateKey signatureDataBytes) ;;
    ret (Flatten [[5]; encodedPublicKey; [len keyHandle mod 256]; keyHandle;
                  cert; signature; ToBE16 u2f_SW_NO_ERROR]).

(** ** AUTHENTICATE *)

Definition handleU2FAuthenticate (header : u2fMessageHeader) (request : bytes)
  : M bytes :=
  let requestReader := request in
  let control := Param1 header in
  '(challenge, requestReader) <- lift (Read requestReader 32) ;;
  '(application, requestReader) <- lift (Read requestReader 32) ;;
  '(keyHandleLength, requestReader) <- lift (ReadLE8 requestReader) ;;
  '(encryptedKeyHandleBytes, requestReader) <-
    lift (Read requestReader keyHandleLength) ;;
  opened <- openKeyHandle encryptedKeyHandleBytes ;;
  match opened with
  | None => ret (ToBE16 u2f_SW_WRONG_DATA)
  | Some keyHandle =>
      if is_nil (PrivateKey keyHandle)
         || bytes_differ (slice_bytes (ApplicationID keyHandle)) application
      then ret (ToBE16 u2f_SW_WRONG_DATA)
      else
        privateKey <-
          CheckErr (x509_ParseECPrivateKey (slice_bytes (PrivateKey keyHandle)))
                   "Could not decode private key" ;;
        if control =? u2f_AUTH_CONTROL_CHECK_ONLY then
          ret (ToBE16 u2f_SW_CONDITIONS_NOT_SATISFIED)
        else if (control =? u2f_AUTH_CONTROL_ENFORCE_USER_PRESENCE_AND_SIGN)
                || (control =? u2f_AUTH_CONTROL_SIGN) then
          approved <-
            (if control =? u2f_AUTH_CONTROL_ENFORCE_USER_PRESENCE_AND_SIGN
             then perform CallApproveU2FAuthentication
                    (ApproveU2FAuthentication keyHandle)
             else ret true) ;;
          if negb approved then ret (ToBE16 u2f_SW_CONDITIONS_NOT_SATISFIED)
          else
            counter <- perform CallNewAuthenticationCounterId
                         NewAuthenticationCounterId ;;
            let signatureDataBytes :=
              Flatten [application; [1]; ToBE32 counter; challenge] in
            signature <- perform CallSign (sign privateKey signatureDataBytes) ;;
            ret (Flatten [[1]; ToBE32 counter; signature;
                          ToBE16 u2f_SW_NO_ERROR])
        else ret (ToBE16 u2f_SW_WRONG_LENGTH)
  end.

(** ** Dispatch *)

(** The bytes of the string ["U2F_V2"]. *)
Definition U2F_V2 : bytes := [85; 50; 70; 95; 86; 50].

Definition handleU2FMessage (message : bytes) : M bytes :=
  '(header, request, responseLength) <- lift (decodeU2FMessage message) ;;
  if Command header =? u2f_COMMAND_VERSION then
    ret (U2F_V2 ++ ToBE16 u2f_SW_NO_ERROR)
  else if Command header =? u2f_COMMAND_REGISTER then
    handleU2FRegister header request
  else if Command header =? u2f_COMMAND_AUTHENTICATE then
    handleU2FAuthenticate header request
  else panic "Invalid U2F Command".

End Server.

Arguments State W : clear implicits.
Arguments M W A : clear implicits.

End U2F.

(** * OUT transfers: [handleOutputMessage] under the output lock

    [HandleMessage] starts one goroutine per OUT URB
    ([go device.handleOutputMessage(id, transferBuffer, onFinish)]).  The
    goroutines interleave; each is at one of the statements of
    [handleOutputMessage], and a step runs the next statement of one of
    them.  [Lock] can only step while the lock is free.  What
    [delegate.GetResponse] answers is chosen with the step. *)

Module Output.

Inductive pc : Type :=
| AtLock
| AtGetResponse
| AtCopy (response : bytes)
| AtOnFinish (response : bytes)
| AtUnlock (response : option bytes)
| Done.

Record goroutine := {
  id : Z;
  transferBuffer : bytes;
  at_pc : pc
}.

Inductive event : Type :=
| EvLock (id : Z)
| EvGetResponse (id : Z) (response : option bytes)
| EvCopy (id : Z)
| EvOnFinish (id : Z)
| EvUnlock (id : Z).

Record device := {
  outputLock : bool;
  goroutines : list goroutine;
  trace : list event
}.

(** The builtin [copy(dst, src)]: the first [min(len(dst), len(src))] bytes
    of [dst] are overwritten. *)
Definition copy (dst src : bytes) : bytes :=
  firstn (List.length dst) src ++ skipn (List.length src) dst.

Definition goto (g : goroutine) (buffer : bytes) (p : pc) : goroutine :=
  {| id := id g; transferBuffer := buffer; at_pc := p |}.

(** One statement of [handleOutputMessage]: the lock after it, the
    goroutine after it, and what it did. *)
Definition step_goroutine (locked : bool) (answer : option bytes) (g : goroutine)
  : option (bool * goroutine * event) :=
  match at_pc g with
  | AtLock =>
      if locked then None
      else Some (true, goto g (transferBuffer g) AtGetResponse, EvLock (id g))
  | AtGetResponse =>
      let response := answer in
      Some (locked,
            goto g (transferBuffer g)
                 match response with
                 | Some r => AtCopy r
                 | None => AtUnlock None
                 end,
            EvGetResponse (id g) response)
  | AtCopy response =>
      Some (locked, goto g (copy (transferBuffer g) response) (AtOnFinish response),
            EvCopy (id g))
  | AtOnFinish response =>
      Some (locked, goto g (transferBuffer g) (AtUnlock (Some response)),
            EvOnFinish (id g))
  | AtUnlock _ =>
      Some (false, goto g (transferBuffer g) Done, EvUnlock (id g))
  | Done => None
  end.

Fixpoint set_nth {A} (k : nat) (x : A) (l : list A) : list A :=
  match l, k with
  | [], _ => []
  | _ :: t, O => x :: t
  | h :: t, S k' => h :: set_nth k' x t
  end.

(** What happens next: an OUT URB arrives and its goroutine starts, or the
    goroutine of the [k]-th URB submitted runs its next statement. *)
Inductive choice : Type :=
| Submit (id : Z) (buffer : bytes)
| Run (k : nat) (answer : option bytes).

Definition step (d : device) (c : choice) : option device :=
  match c with
  | Submit i buffer =>
      Some {| outputLock := outputLock d;
              goroutines := goroutines d ++
                [{| id := i; transferBuffer := buffer; at_pc := AtLock |}];
              trace := trace d |}
  | Run k answer =>
      match nth_error (goroutines d) k with
      | None => None
      | Some g =>
          match step_goroutine (outputLock d) answer g with
          | None => None
          | Some (locked, g', ev) =>
              Some {| outputLock := locked;
                      goroutines := set_nth k g' (goroutines d);
                      trace := trace d ++ [ev] |}
          end
      end
  end.

Fixpoint run (d : device) (cs : list choice) : option device :=
  match cs with
  | [] => Some d
  | c :: rest =>
      match step d c with
      | Some d' => run d' rest
      | None => None
      end
  end.

(** [NewUSBDevice]: the lock free, no transfer yet. *)
Definition NewUSBDevice : device :=
  {| outputLock := false; goroutines := []; trace := [] |}.

Definition reachable (d : device) : Prop :=
  exists cs, run NewUSBDevice cs = Some d.

(** A goroutine is inside the critical section from its [Lock] to its
    [Unlock]. *)
Definition inside (p : pc) : bool :=
  match p with
  | AtLock | Done => false
  | _ => true
  end.

(** The events of one whole run of [handleOutputMessage]. *)
Definition handler_events (r : Z * option bytes) : list event :=
  let '(i, answer) := r in
  [EvLock i; EvGetResponse i answer] ++
  match answer with
  | Some _ => [EvCopy i; EvOnFinish i]
  | None => []
  end ++ [EvUnlock i].

(** The events of a goroutine that is inside, so far. *)
Definition events_so_far (g : goroutine) : list event :=
  let i := id g in
  match at_pc g with
  | AtLock | Done => []
  | AtGetResponse => [EvLock i]
  | AtCopy r => [EvLock i; EvGetResponse i (Some r)]
  | AtOnFinish r => [EvLock i; EvGetResponse i (Some r); EvCopy i]
  | AtUnlock (Some r) =>
      [EvLock i; EvGetResponse i (Some r); EvCopy i; EvOnFinish i]
  | AtUnlock None => [EvLock i; EvGetResponse i None]
  end.

(** ** The invariant of the lock *)

Definition all_outside (gs : list goroutine) : Prop :=
  forall k g, nth_error gs k = Some g -> inside (at_pc g) = false.

Definition others_outside (k : nat) (gs : list goroutine) : Prop :=
  forall k' g, k' <> k -> nth_error gs k' = Some g -> inside (at_pc g) = false.

(** The trace is whole handler runs one after the other, then the events of
    the goroutine that holds the lock, if one does; no other goroutine is
    inside. *)
Definition serial (d : device) : Prop :=
  exists runs : list (Z * option bytes),
    if outputLock d then
      exists k g,
        nth_error (goroutines d) k = Some g
        /\ inside (at_pc g) = true
        /\ others_outside k (goroutines d)
        /\ trace d = List.concat (map handler_events runs) ++ events_so_far g
    else
      all_outside (goroutines d)
      /\ trace d = List.concat (map handler_events runs).

(** No [Lock] event in a list of events. *)
Definition lock_free (l : list event) : Prop := forall i, ~ In (EvLock i) l.

End Output.

(** * A client port and codecs to run the server on

    A concrete [FIDOClient] and [Crypto] under which the server computes:
    a counter for the outside state, a checksum for the authentication tag,
    and CBOR (RFC 8949) for the two structs with the integer keys [1] and [2]
    of their [keyasint] tags.  They stand in for the real port and libraries
    wherever a statement is evaluated on a concrete APDU. *)

Module Fixture.

Import U2F.

(** ** CBOR byte strings *)

(** An indefinite-length byte string: one-byte chunks up to the break. *)
Fixpoint cbor_chunks (d : bytes) : bytes :=
  match d with
  | [] => [255]
  | b :: rest => 65 :: b :: cbor_chunks rest
  end.

Definition cbor_bstr (d : bytes) : bytes :=
  let n := len d in
  if n <? 24 then (64 + n) :: d
  else if n <? 256 then 88 :: n :: d
  else if n <? 65536 then 89 :: n / 256 :: n mod 256 :: d
  else 95 :: cbor_chunks d.

(** A [[]byte] field: [nil] is the CBOR null. *)
Definition cbor_field (s : option bytes) : bytes :=
  match s with
  | None => [246]
  | Some d => cbor_bstr d
  end.

Definition take (n : Z) (l : bytes) : option (bytes * bytes) :=
  if (0 <=? n) && (n <=? len l)
  then Some (firstn (Z.to_nat n) l, skipn (Z.to_nat n) l)
  else None.

Fixpoint read_chunks (l : bytes) : option (bytes * bytes) :=
  match l with
  | [] => None
  | h :: t =>
      if h =? 255 then Some ([], t)
      else if h =? 65 then
        match t with
        | [] => None
        | b :: t' =>
            match read_chunks t' with
            | Some (d, rest) => Some (b :: d, rest)
            | None => None
            end
        end
      else None
  end.

Definition read_bstr (l : bytes) : option (bytes * bytes) :=
  match l with
  | [] => None
  | h :: t =>
      if (64 <=? h) && (h <? 88) then take (h - 64) t
      else if h =? 88 then
        match t with
        | n :: t' => take n t'
        | [] => None
        end
      else if h =? 89 then
        match t with
        | hi :: lo :: t' => take (hi * 256 + lo) t'
        | _ => None
        end
      else if h =? 95 then read_chunks t
      else None
  end.

Definition read_field (l : bytes) : option (option bytes * bytes) :=
  match l with
  | [] => None
  | h :: t =>
      if h =? 246 then Some (None, t)
      else
        match read_bstr l with
        | Some (d, rest) => Some (Some d, rest)
        | None => None
        end
  end.

(** A map of two pairs, keys [1] and [2], each value a field. *)
Definition cbor_pair (a b : option bytes) : bytes :=
  162 :: 1 :: cbor_field a ++ 2 :: cbor_field b.

Definition read_pair (l : bytes) : option (option bytes * option bytes) :=
  match l with
  | m :: k1 :: t =>
      if (m =? 162) && (k1 =? 1) then
        match read_field t with
        | Some (a, k2 :: t') =>
            if k2 =? 2 then
              match read_field t' with
              | Some (b, []) => Some (a, b)
              | _ => None
              end
            else None
        | _ => None
        end
      else None
  | _ => None
  end.

(** ** The sealed envelope *)

Record box := {
  Data : bytes;
  IV : bytes
}.

Definition sum_bytes (l : bytes) : Z := fold_right Z.add 0 l.

Definition tag (key iv data : bytes) : Z :=
  (sum_bytes key + sum_bytes iv + sum_bytes data) mod 256.

Definition seal_box (key data : bytes) (w : Z) : box * Z :=
  let iv := be_bytes 12 w in
  ({| Data := data ++ [tag key iv data]; IV := iv |}, w + 1).

(** Modelled from the spec: an opening that fails, for want of a tag or for
    a tag that does not match, hands back [failed_opening]. *)
Definition open_box (key : bytes) (b : box) : Exec bytes :=
  match rev (Data b) with
  | [] => Ok failed_opening
  | t :: body =>
      let data := rev body in
      if t =? tag key (IV b) data then Ok data
      else Ok failed_opening
  end.

(** ** Keys and signatures *)

Definition marshal_key (k : ecdsa_PrivateKey) : option bytes :=
  Some (be_bytes 32 (D k) ++ be_bytes 32 (X k) ++ be_bytes 32 (Y k)).

Definition parse_key (l : bytes) : option ecdsa_PrivateKey :=
  if len l =? 96 then
    Some {| D := from_be (firstn 32 l);
            X := from_be (firstn 32 (skipn 32 l));
            Y := from_be (skipn 64 l) |}
  else None.

Definition sign_bytes (k : ecdsa_PrivateKey) (data : bytes) (w : Z) : bytes * Z :=
  ([48; 6; 2; 1; (D k + sum_bytes data) mod 256; 2; 1; w mod 256], w + 1).

(** The base point of P-256 with the scalar [1]. *)
Definition base_key : ecdsa_PrivateKey :=
  {| D := 1;
     X := 0x6b17d1f2e12c4247f8bce6e563a440f277037d812deb33a0f4a13945d898c296;
     Y := 0x4fe342e2fe1a7f9b8ee7eb4a7c0f9e162bce33576b315ececbb6406837bf51f5 |}.

(** ** The instances; the outside state is a counter *)

#[export] Instance client : FIDOClient Z := {|
  SealingEncryptionKey := fun w => ([11; 22; 33; 44], w);
  NewPrivateKey := fun w => (base_key, w + 1);
  CreateAttestationCertificiate := fun _ w => ([48; 3; 2; 1; 0], w);
  ApproveU2FRegistration := fun _ w => (true, w);
  ApproveU2FAuthentication := fun _ w => (true, w);
  NewAuthenticationCounterId := fun w => (w, w + 1)
|}.

#[export] Instance crypto : Crypto Z := {|
  encryptedBox := box;
  seal := seal_box;
  open := open_box;
  sign := sign_bytes;
  x509_MarshalECPrivateKey := marshal_key;
  x509_ParseECPrivateKey := parse_key;
  MarshalCBOR_KeyHandle := fun h => cbor_pair (PrivateKey h) (ApplicationID h);
  Unmarshal_KeyHandle := fun l =>
    match read_pair l with
    | Some (p, a) => Some {| PrivateKey := p; ApplicationID := a |}
    | None => None
    end;
  MarshalCBOR_encryptedBox := fun b => cbor_pair (Some (Data b)) (Some (IV b));
  Unmarshal_encryptedBox := fun l =>
    match read_pair l with
    | Some (Some d, Some iv) => Some {| Data := d; IV := iv |}
    | _ => None
    end
|}.

(** The REGISTER request of scenario S4: a challenge of 32 bytes [0x42] and
    an application of 32 bytes [0x17], and its APDU. *)
Definition s4_challenge : bytes := repeat 66 32.
Definition s4_application : bytes := repeat 23 32.
Definition s4_request : bytes := s4_challenge ++ s4_application.
Definition s4_apdu : bytes := [0; 1; 0; 0; 0; 0; 64] ++ s4_request.

(** The key handle REGISTER builds for it, and the sealed handle it issues
    when started in the outside state [16] (the new key moves it to [17]). *)
Definition s4_key_handle : KeyHandle :=
  {| PrivateKey := marshal_key base_key;
     ApplicationID := Some s4_application |}.

Definition sealed (h : KeyHandle) : bytes :=
  match sealKeyHandle h (17, []) with
  | (Ok handle, _) => handle
  | (Panic _, _) => []
  end.

Definition s4_handle : bytes := sealed s4_key_handle.

(** A sealed handle whose key handle has no private key. *)
Definition nil_key_handle : KeyHandle :=
  {| PrivateKey := None; ApplicationID := Some s4_application |}.

Definition nil_handle : bytes := sealed nil_key_handle.

(** A REGISTER APDU with a request of 10 bytes. *)
Definition short_register_apdu : bytes := [0; 1; 0; 0; 0; 0; 10] ++ repeat 66 10.

Definition register_header : u2fMessageHeader :=
  {| Cla := 0; Command := 1; Param1 := 0; Param2 := 0 |}.

Definition authenticate_header (control : Z) : u2fMessageHeader :=
  {| Cla := 0; Command := 2; Param1 := control; Param2 := 0 |}.

(** AUTHENTICATE requests over a handle, for an application. *)
Definition auth_request (application handle : bytes) : bytes :=
  s4_challenge ++ application ++ len handle :: handle.

Definition auth_apdu (control : Z) (request : bytes) : bytes :=
  [0; 2; control; 0; 0; len request / 256; len request mod 256] ++ request.



(** ** Control transfers and OUT schedules *)

(** The report map as the interface documents it, byte by byte. *)
Definition report_map : bytes :=
  [0x06; 0xD0; 0xF1; 0x09; 0x01; 0xA1; 0x01; 0x09; 0x20; 0x14; 0x25; 0xFF;
   0x75; 0x08; 0x95; 0x40; 0x81; 0x02; 0x09; 0x21; 0x14; 0x25; 0xFF; 0x75;
   0x08; 0x95; 0x40; 0x91; 0x02; 0xC0].

(** A GET_DESCRIPTOR(HID_REPORT) setup packet addressed to the interface. *)
Definition get_hid_report_setup : USB.usbSetupPacket :=
  {| USB.BmRequestType := 0x81; USB.BRequest := 6; USB.WValue := 0x2200;
     USB.WIndex := 0; USB.WLength := 64 |}.

(** Two OUT URBs arrive; the handler of the first takes the lock, gets no
    response in time and leaves; the handler of the second then gets one. *)
Definition timeout_schedule : list Output.choice :=
  [Output.Submit 1 [0; 0; 0]; Output.Submit 2 [0; 0; 0];
   Output.Run 0 None; Output.Run 0 None; Output.Run 0 None;
   Output.Run 1 None; Output.Run 1 (Some [7; 7]); Output.Run 1 None;
   Output.Run 1 None; Output.Run 1 None].

(** Two OUT URBs arrive; the goroutine of the second is scheduled first. *)
Definition overtaking_schedule : list Output.choice :=
  [Output.Submit 1 [0; 0; 0]; Output.Submit 2 [0; 0; 0];
   Output.Run 1 None; Output.Run 1 (Some [7; 7]); Output.Run 1 None;
   Output.Run 1 None; Output.Run 1 None;
   Output.Run 0 None; Output.Run 0 (Some [9]); Output.Run 0 None;
   Output.Run 0 None; Output.Run 0 None].

Definition device_after (cs : list Output.choice) : Output.device :=
  match Output.run Output.NewUSBDevice cs with
  | Some d => d
  | None => Output.NewUSBDevice
  end.

End Fixture.

(** * The host side: APDUs as the decoder expects them, descriptor chains

    What a host does with the bytes: it frames a request in one of the four
    shapes that the comments of [decodeU2FMessage] name, and it walks a
    descriptor response by the [bLength] byte of each descriptor. *)

Module Host.

Import U2F.

Definition header_bytes (h : u2fMessageHeader) : bytes :=
  [Cla h; Command h; Param1 h; Param2 h].

(** No lengths at all; a response length alone; a request length with its
    request; both. *)
Definition encodeU2FMessage (h : u2fMessageHeader) (request : bytes)
    (responseLength : option Z) : bytes :=
  header_bytes h ++
  match request, responseLength with
  | [], None => []
  | [], Some le => 0 :: ToBE16 le
  | _ :: _, None => 0 :: ToBE16 (len request) ++ request
  | _ :: _, Some le => 0 :: ToBE16 (len request) ++ request ++ ToBE16 le
  end.

(** The descriptors of a response, each as its [bLength] and its
    [bDescriptorType]; [None] when a [bLength] is below the two header bytes
    or runs past the end. *)
Fixpoint descriptor_chain (fuel : nat) (d : bytes) : option (list (Z * Z)) :=
  match d with
  | [] => Some []
  | [_] => None
  | bLength :: bDescriptorType :: _ =>
      match fuel with
      | O => None
      | S fuel' =>
          if (2 <=? bLength) && (bLength <=? len d) then
            match descriptor_chain fuel' (skipn (Z.to_nat bLength) d) with
            | Some rest => Some ((bLength, bDescriptorType) :: rest)
            | None => None
            end
          else None
      end
  end.

(** The requests that [getDescriptor] serves. *)
Definition served (descriptorType index : Z) : Prop :=
  descriptorType = USB.usbDescriptorDevice
  \/ descriptorType = USB.usbDescriptorConfiguration
  \/ (descriptorType = USB.usbDescriptorString /\ 0 <= index <= 5).

End Host.

(** * Where a handler of an OUT URB stands *)

Module Handler.

Import Output.

(** What [GetResponse] answers to the handler of the [k]-th URB at the
    statement that choice [c] runs: the answer, when that statement is this
    handler's call of [GetResponse]; nothing at any other statement and at
    the statements of the other handlers. *)
Definition received_at (d : device) (c : choice) (k : nat)
  : list (option bytes) :=
  match c with
  | Run j answer =>
      if Nat.eqb j k then
        match nth_error (goroutines d) k with
        | Some g =>
            match at_pc g with
            | AtGetResponse => [answer]
            | _ => []
            end
        | None => []
        end
      else []
  | Submit _ _ => []
  end.

(** What the statement that choice [c] runs copies into the transfer buffer
    of the [k]-th URB: the source of the copy, when that statement is the
    [copy] of this URB's handler. *)
Definition copied_at (d : device) (c : choice) (k : nat) : list bytes :=
  match c with
  | Run j _ =>
      if Nat.eqb j k then
        match nth_error (goroutines d) k with
        | Some g =>
            match at_pc g with
            | AtCopy response => [response]
            | _ => []
            end
        | None => []
        end
      else []
  | Submit _ _ => []
  end.

(** The answers of [GetResponse] to the handler of the [k]-th URB along a
    schedule, in order. *)
Fixpoint responses (d : device) (cs : list choice) (k : nat)
  : list (option bytes) :=
  match cs with
  | [] => []
  | c :: rest =>
      match step d c with
      | Some d' => received_at d c k ++ responses d' rest k
      | None => []
      end
  end.

(** The copies into the transfer buffer of the [k]-th URB along a schedule,
    in order. *)
Fixpoint copies (d : device) (cs : list choice) (k : nat) : list bytes :=
  match cs with
  | [] => []
  | c :: rest =>
      match step d c with
      | Some d' => copied_at d c k ++ copies d' rest k
      | None => []
      end
  end.

(** Where a handler stands against what it has received and copied so far:
    its buffer is the submitted one with the copies made, and the statement
    it is at tells the answers and the copies there have been. *)
Definition consistent (buffer : bytes) (rs : list (option bytes))
    (cps : list bytes) (g : goroutine) : Prop :=
  transferBuffer g = fold_left copy cps buffer
  /\ match at_pc g with
     | AtLock | AtGetResponse => rs = [] /\ cps = []
     | AtCopy r => rs = [Some r] /\ cps = []
     | AtOnFinish r | AtUnlock (Some r) => rs = [Some r] /\ cps = [r]
     | AtUnlock None => rs = [None] /\ cps = []
     | Done =>
         exists answer,
           rs = [answer]
           /\ cps = match answer with Some r => [r] | None => [] end
     end.

(** The statements a handler still has to run, at most. *)
Definition remaining (p : pc) : nat :=
  match p with
  | AtLock => 5
  | AtGetResponse => 4
  | AtCopy _ => 3
  | AtOnFinish _ => 2
  | AtUnlock _ => 1
  | Done => 0
  end.

End Handler.

(** * More inputs to run the server and the device on *)

Module Cases.

Import U2F Fixture.

(** The client port of the fixture with a user who denies. *)
Definition denying_client : FIDOClient Z := {|
  SealingEncryptionKey := fun w => ([11; 22; 33; 44], w);
  NewPrivateKey := fun w => (base_key, w + 1);
  CreateAttestationCertificiate := fun _ w => ([48; 3; 2; 1; 0], w);
  ApproveU2FRegistration := fun _ w => (false, w);
  ApproveU2FAuthentication := fun _ w => (false, w);
  NewAuthenticationCounterId := fun w => (w, w + 1)
|}.

(** A sealed handle whose private key is three bytes that do not parse. *)
Definition odd_key_handle : KeyHandle :=
  {| PrivateKey := Some [1; 2; 3]; ApplicationID := Some s4_application |}.

Definition odd_handle : bytes := sealed odd_key_handle.

(** The REGISTER request of scenario S4 in the short framing: one length
    byte, 64, after the header. *)
Definition short_framed_register : bytes :=
  Host.header_bytes register_header ++ 64 :: s4_request.

(** An APDU with an INS that is no command. *)
Definition unknown_ins_apdu : bytes := [0; 9; 0; 0].

(** The response to the REGISTER of scenario S4 and what stands between its
    first byte and its status word. *)
Definition s4_response : bytes :=
  match fst (handleU2FMessage s4_apdu (16, [])) with
  | Ok r => r
  | Panic _ => []
  end.

Definition s4_body : bytes :=
  firstn (List.length s4_response - 3) (skipn 1 s4_response).

(** Two OUT URBs submitted, and the second served before the first. *)
Definition two_submitted : Output.device :=
  device_after [Output.Submit 1 [0; 0; 0]; Output.Submit 2 [0; 0; 0]].

Definition second_first : list Output.choice :=
  [Output.Run 1 None; Output.Run 1 (Some [7; 7]); Output.Run 1 None;
   Output.Run 1 None; Output.Run 1 None;
   Output.Run 0 None; Output.Run 0 (Some [9]); Output.Run 0 None;
   Output.Run 0 None; Output.Run 0 None].

(** One OUT URB whose handler holds the lock and waits for its response. *)
Definition waiting : Output.device :=
  device_after [Output.Submit 1 [0; 0; 0]; Output.Run 0 None].

End Cases.

(** * Properties of the USB descriptors *)

Section DescriptorFacts.

Import USB Fixture.

Lemma ToLE_endpoint_length e : List.length (ToLE_endpoint e) = 7%nat.
Proof. reflexivity. Qed.

Lemma ToLE_configuration_length c : List.length (ToLE_configuration c) = 9%nat.
Proof. reflexivity. Qed.

(** C5, as the claim states it, fails: the report map that
    GET_DESCRIPTOR(HID_REPORT) returns on the interface path is not 34 bytes
    long. *)
Lemma hid_report_is_not_34_bytes :
  exists r,
    handleControlMessage get_hid_report_setup = Ok (Some r) /\ len r <> 34.
Proof.
  exists getHIDReport. split; [reflexivity | discriminate].
Qed.

(** C5, amended: every GET_DESCRIPTOR request with descriptor type HID_REPORT
    addressed to the interface returns the report map, which is the sequence
    06 D0 F1 09 01 A1 01 09 20 14 25 FF 75 08 95 40 81 02 09 21 14 25 FF 75
    08 95 40 91 02 C0 and is exactly 30 bytes long; the configuration
    assembly does not embed the map but its length, 30, in the
    wReportDescriptorLength of the HID descriptor. *)
Theorem hid_report_map (setup : usbSetupPacket) :
  recipient setup = usbRequestRecipientInterface ->
  BRequest setup = usbHIDRequestGetDescriptor ->
  fst (getDescriptorTypeAndIndex (WValue setup)) = usbDescriptorHIDReport ->
  handleControlMessage setup = Ok (Some report_map)
  /\ len report_map = 30
  /\ getHIDReport = report_map
  /\ hid_WReportDescriptorLength (getHIDDescriptor getHIDReport) = 30
  /\ forall index,
       exists before after,
         getDescriptor usbDescriptorConfiguration index =
           Ok (Some (before ++ ToLE_hid (getHIDDescriptor getHIDReport) ++ after))
         /\ len before = 18.
Proof.
  intros Hrec Hreq Hty.
  split; [| repeat split].
  - unfold handleControlMessage, handleInterfaceRequest.
    rewrite Hrec, Hreq. cbn [Z.eqb Pos.eqb usbRequestRecipientInterface
      usbRequestRecipientDevice usbHIDRequestGetDescriptor usbHIDRequestSetIdle
      usbHIDRequestSetProtocol].
    destruct (getDescriptorTypeAndIndex (WValue setup)) as [ty idx].
    cbn [fst] in Hty. rewrite Hty. reflexivity.
  - intros index.
    exists (ToLE_configuration (getConfigurationDescriptor 32)
            ++ ToLE_interface getInterfaceDescriptor).
    exists (List.concat (map ToLE_endpoint getEndpointDescriptors)).
    split; reflexivity.
Qed.

Lemma hid_report_map_witness :
  handleControlMessage get_hid_report_setup = Ok (Some report_map)
  /\ len report_map = 30.
Proof.
  destruct (hid_report_map get_hid_report_setup) as (H1 & H2 & _);
    [reflexivity | reflexivity | reflexivity |].
  split; [exact H1 | exact H2].
Defined.

(** C7: the bytes returned for GET_DESCRIPTOR(CONFIGURATION) are the
    configuration descriptor (9 bytes) followed by the interface descriptor
    (9, at offset 9), the HID descriptor (9, at offset 18) and the two
    endpoint descriptors EP1-IN (7, at offset 27) and EP2-OUT (7, at offset
    34), each the little-endian layout of the record the source builds and
    each given here byte for byte; they are 41 bytes, begin with 0x09 0x02,
    and the wTotalLength field in bytes 2-3, little-endian, is 41: the
    length of the tail plus the 9 bytes of the configuration descriptor. *)
Theorem configuration_descriptor_block (index : Z) :
  let interface := ToLE_interface getInterfaceDescriptor in
  let hid := ToLE_hid (getHIDDescriptor getHIDReport) in
  let endpoints := map ToLE_endpoint getEndpointDescriptors in
  let tail := interface ++ hid ++ List.concat endpoints in
  let config := ToLE_configuration (getConfigurationDescriptor (len tail)) in
  exists block,
    getDescriptor usbDescriptorConfiguration index = Ok (Some block)
    /\ block = config ++ tail
    /\ config = [0x09; 0x02; 0x29; 0x00; 0x01; 0x00; 0x04; 0xC0; 0x00]
    /\ interface = [0x09; 0x04; 0x00; 0x00; 0x02; 0x03; 0x00; 0x00; 0x05]
    /\ hid = [0x09; 0x21; 0x01; 0x01; 0x00; 0x01; 0x22; 0x1E; 0x00]
    /\ endpoints = [ [0x07; 0x05; 0x81; 0x03; 0x40; 0x00; 0xFF];
                     [0x07; 0x05; 0x02; 0x03; 0x40; 0x00; 0xFF] ]
    /\ block = [0x09; 0x02; 0x29; 0x00; 0x01; 0x00; 0x04; 0xC0; 0x00;
                0x09; 0x04; 0x00; 0x00; 0x02; 0x03; 0x00; 0x00; 0x05;
                0x09; 0x21; 0x01; 0x01; 0x00; 0x01; 0x22; 0x1E; 0x00;
                0x07; 0x05; 0x81; 0x03; 0x40; 0x00; 0xFF;
                0x07; 0x05; 0x02; 0x03; 0x40; 0x00; 0xFF]
    /\ firstn 9 block = config
    /\ firstn 9 (skipn 9 block) = interface
    /\ firstn 9 (skipn 18 block) = hid
    /\ [firstn 7 (skipn 27 block); skipn 34 block] = endpoints
    /\ len config = 9
    /\ len interface = 9
    /\ len hid = 9
    /\ map len endpoints = [7; 7]
    /\ len tail = 9 + 9 + 7 + 7
    /\ len block = 41
    /\ firstn 2 block = [0x09; 0x02]
    /\ nth 2 block 0 + 256 * nth 3 block 0 = 41
    /\ 41 = len tail + len config.
Proof.
  cbv zeta. eexists. split; [reflexivity |]. repeat split.
Qed.

(** Scenario S2: the first eight bytes of GET_DESCRIPTOR(DEVICE). *)
Example device_descriptor_head :
  exists d,
    handleControlMessage
      {| BmRequestType := 0x80; BRequest := 6; WValue := 0x0100;
         WIndex := 0; WLength := 64 |} = Ok (Some d)
    /\ firstn 8 d = [0x12; 0x01; 0x10; 0x01; 0x00; 0x00; 0x00; 0x40]
    /\ len d = 18.
Proof. eexists. repeat split. Qed.

(** Scenario S3: GET_DESCRIPTOR(STRING, 2) is [1A 03] and "Virtual FIDO" in
    UTF-16LE, 26 bytes. *)
Example string_descriptor_2 :
  getDescriptor usbDescriptorString 2
  = Ok (Some ([0x1A; 0x03] ++ Utf16encode "Virtual FIDO"))
  /\ len ([0x1A; 0x03] ++ Utf16encode "Virtual FIDO") = 26.
Proof. split; reflexivity. Qed.

End DescriptorFacts.


(** * Properties of the U2F application layer *)

Section ServerFacts.

Import U2F.

Context {W : Type} {client : FIDOClient W} {crypto : Crypto W}.

(** ** Running the server's monad one step *)

Lemma bind_ret {A B} (a : A) (f : A -> M W B) (s : State W) :
  bind (ret a) f s = f a s.
Proof. reflexivity. Qed.

Lemma bind_panic {A B} (msg : string) (f : A -> M W B) (s : State W) :
  bind (panic msg) f s = (Panic msg, s).
Proof. reflexivity. Qed.

Lemma bind_lift_Ok {A B} (a : A) (f : A -> M W B) (s : State W) :
  bind (lift (Ok a)) f s = f a s.
Proof. reflexivity. Qed.

Lemma bind_lift_Panic {A B} (msg : string) (f : A -> M W B) (s : State W) :
  bind (lift (@Panic A msg)) f s = (Panic msg, s).
Proof. reflexivity. Qed.

Lemma bind_perform {A B} (c : Call) (op : W -> A * W) (f : A -> M W B) (s : State W) :
  bind (perform c op) f s
  = f (fst (op (fst s))) (snd (op (fst s)), snd s ++ [c]).
Proof. reflexivity. Qed.

Lemma bind_bind {A B C} (m : M W A) (f : A -> M W B) (g : B -> M W C) (s : State W) :
  bind (bind m f) g s = bind m (fun a => bind (f a) g) s.
Proof. unfold bind. destruct (fst (m s)); reflexivity. Qed.

Lemma bind_Assert_true {B} (msg : string) (f : unit -> M W B) (s : State W) :
  bind (Assert true msg) f s = f tt s.
Proof. reflexivity. Qed.

Lemma bind_Assert_false {B} (msg : string) (f : unit -> M W B) (s : State W) :
  bind (Assert false msg) f s = (Panic msg, s).
Proof. reflexivity. Qed.

Lemma bind_CheckErr_Some {A B} (a : A) (msg : string) (f : A -> M W B) (s : State W) :
  bind (CheckErr (Some a) msg) f s = f a s.
Proof. reflexivity. Qed.

Lemma bind_CheckErr_None {A B} (msg : string) (f : A -> M W B) (s : State W) :
  bind (CheckErr (@None A) msg) f s = (Panic msg, s).
Proof. reflexivity. Qed.

Ltac step_m :=
  repeat (first
    [ rewrite bind_ret | rewrite bind_panic | rewrite bind_lift_Ok
    | rewrite bind_lift_Panic | rewrite bind_perform | rewrite bind_bind
    | rewrite bind_Assert_true | rewrite bind_Assert_false
    | rewrite bind_CheckErr_Some | rewrite bind_CheckErr_None ];
    cbv beta iota; cbn [fst snd]).

(** ** Reading and slicing *)

Lemma len_nonneg {A} (l : list A) : 0 <= len l.
Proof. unfold len. lia. Qed.

Lemma len_app {A} (a b : list A) : len (a ++ b) = len a + len b.
Proof. unfold len. rewrite length_app. lia. Qed.

Lemma firstn_length_app {A} (a b : list A) :
  firstn (List.length a) (a ++ b) = a.
Proof. induction a; cbn; congruence. Qed.

Lemma skipn_length_app {A} (a b : list A) :
  skipn (List.length a) (a ++ b) = b.
Proof. induction a; cbn; congruence. Qed.

Lemma Read_app (a b : bytes) (n : Z) :
  len a = n -> Read (a ++ b) n = Ok (a, b).
Proof.
  intros <-. unfold Read, len. rewrite Nat2Z.id.
  rewrite firstn_length_app, skipn_length_app, Nat.sub_diag.
  cbn [repeat]. rewrite app_nil_r.
  destruct a; reflexivity.
Qed.

Lemma bytes_differ_false (a b : bytes) : bytes_differ a b = false <-> a = b.
Proof.
  revert b. induction a as [| x a IH]; intros [| y b]; cbn; try easy.
  rewrite orb_false_iff, negb_false_iff, Z.eqb_eq, IH.
  split; [intros [-> ->]; reflexivity | intros [= -> ->]; auto].
Qed.

Lemma bytes_differ_true (a b : bytes) : a <> b -> bytes_differ a b = true.
Proof.
  intros Hne. destruct (bytes_differ a b) eqn:E; [reflexivity |].
  apply bytes_differ_false in E. contradiction.
Qed.

(** The four reads of AUTHENTICATE on a request laid out as
    challenge[32] ‖ application[32] ‖ handle_len ‖ handle ‖ rest. *)
Lemma authenticate_reads (challenge application handle rest : bytes) :
  len challenge = 32 -> len application = 32 ->
  Read (challenge ++ application ++ len handle :: handle ++ rest) 32
    = Ok (challenge, application ++ len handle :: handle ++ rest)
  /\ Read (application ++ len handle :: handle ++ rest) 32
    = Ok (application, len handle :: handle ++ rest)
  /\ ReadLE8 (len handle :: handle ++ rest) = Ok (len handle, handle ++ rest)
  /\ Read (handle ++ rest) (len handle) = Ok (handle, rest).
Proof.
  intros Hc Ha. repeat split; try (apply Read_app; assumption || reflexivity).
Qed.

(** ** The CLA byte *)

(** C8: two APDUs that differ only in the CLA byte get the same result from
    handleU2FMessage in the same outside state: the same response, or an
    abort at the same place, with the same calls to the client port and the
    same state after.  No CLA value is looked at, none is rejected. *)
Theorem cla_is_ignored (cla1 cla2 : Z) (rest : bytes) (s : State W) :
  handleU2FMessage (cla1 :: rest) s = handleU2FMessage (cla2 :: rest) s.
Proof.
  destruct rest as [| ins [| p1 [| p2 buffer]]]; try reflexivity.
  unfold handleU2FMessage, decodeU2FMessage, bind, lift.
  cbn [ReadBE_header exec_bind].
  destruct (len buffer =? 0); [reflexivity |].
  destruct (Read buffer 1) as [[marker buffer1] | msg]; [| reflexivity].
  cbn [exec_bind].
  destruct (negb (nth 0 marker 0 =? 0)); [reflexivity |].
  destruct (ReadBE16 buffer1) as [[length buffer2] | msg]; [| reflexivity].
  cbn [exec_bind].
  destruct (len buffer2 =? 0); [reflexivity |].
  destruct (Read buffer2 length) as [[request buffer3] | msg]; [| reflexivity].
  cbn [exec_bind].
  destruct (len buffer3 =? 0); [reflexivity |].
  destruct (ReadBE16 buffer3) as [[responseLength buffer4] | msg]; reflexivity.
Qed.

(** ** REGISTER *)

Lemma len_firstn (l : bytes) (n : Z) :
  0 <= n <= len l -> len (firstn (Z.to_nat n) l) = n.
Proof. unfold len. intros H. rewrite length_firstn. lia. Qed.

Lemma len_skipn (l : bytes) (n : Z) :
  0 <= n <= len l -> len (skipn (Z.to_nat n) l) = len l - n.
Proof. unfold len. intros H. rewrite length_skipn. lia. Qed.

Lemma FillBytes_panic (n : nat) (v : Z) (msg : string) :
  FillBytes n v = Panic msg ->
  msg = "math/big: buffer too small to fit value"%string.
Proof.
  unfold FillBytes. destruct (Z.abs v <? _); [discriminate |].
  intros [= <-]. reflexivity.
Qed.

Lemma panicIfNotOnCurve_panic (x y : Z) (msg : string) :
  panicIfNotOnCurve x y = Panic msg ->
  msg = "crypto/elliptic: attempted operation on invalid point"%string.
Proof.
  unfold panicIfNotOnCurve. destruct ((x =? 0) && (y =? 0)); [discriminate |].
  destruct (IsOnCurve x y); [discriminate |].
  intros [= <-]. reflexivity.
Qed.

Lemma dispatch_register
    (message : bytes) (header : u2fMessageHeader) (request : bytes)
    (responseLength : Z) (s : State W) :
  decodeU2FMessage message = Ok (header, request, responseLength) ->
  Command header = u2f_COMMAND_REGISTER ->
  handleU2FMessage message s = handleU2FRegister header request s.
Proof.
  intros Hdec Hcmd. unfold handleU2FMessage, bind, lift.
  rewrite Hdec. cbn [fst snd]. rewrite Hcmd. reflexivity.
Qed.

(** C1, amended: a REGISTER APDU whose decoded request is not exactly 64
    bytes gets no status word: handleU2FMessage aborts, on the slice
    [request[:32]] or [request[32:]] or on the length assertion, before any
    call to the client port.  A 64-byte request passes these checks: the
    result is neither SW_WRONG_DATA nor one of these aborts. *)
Theorem register_length_check
    (message : bytes) (header : u2fMessageHeader) (request : bytes)
    (responseLength : Z) (s : State W) :
  decodeU2FMessage message = Ok (header, request, responseLength) ->
  Command header = u2f_COMMAND_REGISTER ->
  (len request <> 64 ->
     exists msg,
       handleU2FMessage message s = (Panic msg, s)
       /\ (msg = "slice bounds out of range"%string
           \/ msg = "Application is not 32 bytes"%string))
  /\ (len request = 64 ->
      fst (handleU2FMessage message s) <> Ok (ToBE16 u2f_SW_WRONG_DATA)
      /\ forall msg,
           fst (handleU2FMessage message s) = Panic msg ->
           msg <> "slice bounds out of range"%string
           /\ msg <> "Challenge is not 32 bytes"%string
           /\ msg <> "Application is not 32 bytes"%string).
Proof.
  intros Hdec Hcmd.
  rewrite (dispatch_register _ _ _ _ s Hdec Hcmd).
  unfold handleU2FRegister, slice_to, slice_from.
  split.
  - intros Hlen.
    destruct (32 <=? len request) eqn:E32.
    + apply Z.leb_le in E32. step_m.
      rewrite (len_firstn request 32), (len_skipn request 32) by lia.
      rewrite Z.eqb_refl. step_m.
      replace (len request - 32 =? 32) with false
        by (symmetry; apply Z.eqb_neq; lia).
      step_m. eexists; split; [reflexivity | right; reflexivity].
    + step_m. eexists; split; [reflexivity | left; reflexivity].
  - intros Hlen.
    assert (E32 : (32 <=? len request) = true) by (apply Z.leb_le; lia).
    rewrite E32. step_m.
    rewrite (len_firstn request 32), (len_skipn request 32), Hlen by lia.
    rewrite Z.eqb_refl. step_m.
    change (64 - 32 =? 32) with true. step_m.
    unfold elliptic_Marshal.
    destruct (panicIfNotOnCurve _ _) as [[] | m0] eqn:Ec; cbn [exec_bind];
      [| apply panicIfNotOnCurve_panic in Ec; subst m0; step_m;
         split; [discriminate | intros msg [= <-]; repeat split; discriminate]].
    destruct (FillBytes 32 (X _)) as [xs | m1] eqn:Ex; cbn [exec_bind];
      [| apply FillBytes_panic in Ex; subst m1; step_m;
         split; [discriminate | intros msg [= <-]; repeat split; discriminate]].
    destruct (FillBytes 32 (Y _)) as [ys | m2] eqn:Ey; cbn [exec_bind];
      [| apply FillBytes_panic in Ey; subst m2; step_m;
         split; [discriminate | intros msg [= <-]; repeat split; discriminate]].
    step_m.
    destruct (x509_MarshalECPrivateKey _) as [enc |]; step_m;
      [| split; [discriminate | intros msg [= <-]; repeat split; discriminate]].
    unfold sealKeyHandle. step_m.
    destruct (fst (ApproveU2FRegistration _ _)); cbn [negb]; step_m;
      split; discriminate.
Qed.

Lemma dispatch_authenticate
    (message : bytes) (header : u2fMessageHeader) (request : bytes)
    (responseLength : Z) (s : State W) :
  decodeU2FMessage message = Ok (header, request, responseLength) ->
  Command header = u2f_COMMAND_AUTHENTICATE ->
  handleU2FMessage message s = handleU2FAuthenticate header request s.
Proof.
  intros Hdec Hcmd. unfold handleU2FMessage, bind, lift.
  rewrite Hdec. cbn [fst snd]. rewrite Hcmd. reflexivity.
Qed.

Lemma bind_eq_Ok {A B} (m : M W A) (f : A -> M W B) (s s1 : State W) (a : A) :
  m s = (Ok a, s1) -> bind m f s = f a s1.
Proof. intros H. unfold bind. rewrite H. reflexivity. Qed.

Lemma ToBE32_value (v : Z) :
  0 <= v < 4294967296 ->
  nth 0 (ToBE32 v) 0 * 16777216 + nth 1 (ToBE32 v) 0 * 65536
  + nth 2 (ToBE32 v) 0 * 256 + nth 3 (ToBE32 v) 0 = v.
Proof.
  intros Hv. unfold ToBE32. cbn [nth].
  Z.to_euclidean_division_equations. lia.
Qed.

(** ** Key handles *)

(** C2: sealing a key handle whose private key is a byte string of at most
    200 bytes and whose application id is 32 bytes, then opening the result
    under the same sealing key, gives the handle back with no error.  The
    sealing, the opening and the CBOR codec are outside [u2f.go]; what is
    asked of them is that [open] undoes [seal] and that CBOR decoding undoes
    CBOR encoding, of envelopes and of such key handles. *)
Theorem seal_open_KeyHandle
    (h : KeyHandle) (privateKey application : bytes) (s s' : State W) :
  (forall key data w, open key (fst (seal key data w)) = Ok data) ->
  (forall b, Unmarshal_encryptedBox (MarshalCBOR_encryptedBox b) = Some b) ->
  (forall k p a,
      PrivateKey k = Some p -> len p <= 200 ->
      ApplicationID k = Some a -> len a = 32 ->
      Unmarshal_KeyHandle (MarshalCBOR_KeyHandle k) = Some k) ->
  PrivateKey h = Some privateKey -> len privateKey <= 200 ->
  ApplicationID h = Some application -> len application = 32 ->
  fst (SealingEncryptionKey (fst s')) = fst (SealingEncryptionKey (fst s)) ->
  exists boxBytes,
    fst (sealKeyHandle h s) = Ok boxBytes
    /\ fst (openKeyHandle boxBytes s') = Ok (Some h).
Proof.
  intros Haead Hbox Hkh Hp Hlp Ha Hla Hkey.
  eexists. split.
  - unfold sealKeyHandle. step_m. reflexivity.
  - unfold openKeyHandle. rewrite Hbox. step_m.
    rewrite Hkey, Haead. step_m.
    rewrite (Hkh h privateKey application Hp Hlp Ha Hla). reflexivity.
Qed.

(** ** AUTHENTICATE *)

(** C3: an AUTHENTICATE APDU with control byte 0x03 and the approval
    granted, or with control byte 0x08, over a key handle that opens to the
    application id of the request and to a private key that parses, is
    answered by exactly: the byte 0x01, the four bytes of the counter the
    client port hands out, big-endian, the signature made with the recovered
    private key over application ‖ 0x01 ‖ counter_be32 ‖ challenge, and the
    status 0x9000.  The counter bytes signed are the counter bytes of the
    response. *)
Theorem authenticate_sign_response
    (message : bytes) (header : u2fMessageHeader) (request : bytes)
    (responseLength : Z)
    (challenge application handle rest : bytes)
    (keyHandle : KeyHandle) (encodedPrivateKey : bytes)
    (privateKey : ecdsa_PrivateKey) (s s1 : State W) :
  decodeU2FMessage message = Ok (header, request, responseLength) ->
  Command header = u2f_COMMAND_AUTHENTICATE ->
  request = challenge ++ application ++ len handle :: handle ++ rest ->
  len challenge = 32 -> len application = 32 ->
  openKeyHandle handle s = (Ok (Some keyHandle), s1) ->
  slice_bytes (ApplicationID keyHandle) = application ->
  PrivateKey keyHandle = Some encodedPrivateKey ->
  x509_ParseECPrivateKey encodedPrivateKey = Some privateKey ->
  (Param1 header = 0x03
   /\ fst (ApproveU2FAuthentication keyHandle (fst s1)) = true)
  \/ Param1 header = 0x08 ->
  let w := if Param1 header =? 0x03
           then snd (ApproveU2FAuthentication keyHandle (fst s1))
           else fst s1 in
  let counter := fst (NewAuthenticationCounterId w) in
  let counter_be32 := ToBE32 counter in
  let signature :=
    fst (sign privateKey (application ++ [0x01] ++ counter_be32 ++ challenge)
              (snd (NewAuthenticationCounterId w))) in
  fst (handleU2FMessage message s)
    = Ok ([0x01] ++ counter_be32 ++ signature ++ [0x90; 0x00])
  /\ len counter_be32 = 4
  /\ (0 <= counter < 4294967296 ->
      nth 0 counter_be32 0 * 16777216 + nth 1 counter_be32 0 * 65536
      + nth 2 counter_be32 0 * 256 + nth 3 counter_be32 0 = counter).
Proof.
  intros Hdec Hcmd -> Hc Ha Hopen Happ Hpriv Hparse Hctl.
  cbv zeta. split; [| split; [reflexivity | apply ToBE32_value]].
  rewrite (dispatch_authenticate _ _ _ _ s Hdec Hcmd).
  destruct (authenticate_reads challenge application handle rest Hc Ha)
    as (R1 & R2 & R3 & R4).
  unfold handleU2FAuthenticate.
  rewrite R1. step_m. rewrite R2. step_m. rewrite R3. step_m.
  rewrite R4. step_m.
  rewrite (bind_eq_Ok _ _ _ _ _ Hopen).
  rewrite Hpriv, Happ.
  replace (bytes_differ application application) with false
    by (symmetry; apply bytes_differ_false; reflexivity).
  cbn [is_nil orb slice_bytes]. rewrite Hparse. step_m.
  destruct Hctl as [[H3 Happr] | H8].
  - rewrite H3. cbn [Z.eqb Pos.eqb u2f_AUTH_CONTROL_CHECK_ONLY
      u2f_AUTH_CONTROL_ENFORCE_USER_PRESENCE_AND_SIGN orb].
    step_m. rewrite Happr. cbn [negb]. step_m.
    unfold Flatten. cbn [List.concat app fst]. rewrite app_nil_r. reflexivity.
  - rewrite H8. cbn [Z.eqb Pos.eqb u2f_AUTH_CONTROL_CHECK_ONLY
      u2f_AUTH_CONTROL_ENFORCE_USER_PRESENCE_AND_SIGN u2f_AUTH_CONTROL_SIGN orb].
    step_m. cbn [negb]. step_m.
    unfold Flatten. cbn [List.concat app fst]. rewrite app_nil_r. reflexivity.
Qed.


(** C10: an AUTHENTICATE APDU whose key handle opens (the envelope decodes,
    the decryption returns, the CBOR key handle decodes) to a key handle
    with no private key is answered by the status word SW_WRONG_DATA
    (0x6A80), whatever the control byte and whatever the application id
    recovered, equal to the one of the request or not. *)
Theorem authenticate_nil_private_key
    (message : bytes) (header : u2fMessageHeader) (request : bytes)
    (responseLength : Z)
    (challenge application handle rest : bytes)
    (box : encryptedBox) (data : bytes) (keyHandle : KeyHandle)
    (s : State W) :
  decodeU2FMessage message = Ok (header, request, responseLength) ->
  Command header = u2f_COMMAND_AUTHENTICATE ->
  request = challenge ++ application ++ len handle :: handle ++ rest ->
  len challenge = 32 -> len application = 32 ->
  Unmarshal_encryptedBox handle = Some box ->
  open (fst (SealingEncryptionKey (fst s))) box = Ok data ->
  Unmarshal_KeyHandle data = Some keyHandle ->
  PrivateKey keyHandle = None ->
  fst (handleU2FMessage message s) = Ok [0x6A; 0x80].
Proof.
  intros Hdec Hcmd -> Hc Ha Hbox Hopen Hkh Hnil.
  rewrite (dispatch_authenticate _ _ _ _ s Hdec Hcmd).
  destruct (authenticate_reads challenge application handle rest Hc Ha)
    as (R1 & R2 & R3 & R4).
  unfold handleU2FAuthenticate.
  rewrite R1. step_m. rewrite R2. step_m. rewrite R3. step_m.
  rewrite R4. step_m.
  unfold openKeyHandle. rewrite Hbox. step_m.
  rewrite Hopen. step_m. rewrite Hkh. step_m.
  rewrite Hnil. reflexivity.
Qed.

(** ** The REGISTER response *)

Lemma len_be_bytes (n : nat) (v : Z) : len (be_bytes n v) = Z.of_nat n.
Proof.
  unfold len. f_equal. induction n as [| n IH]; cbn [be_bytes List.length];
    congruence.
Qed.

Lemma fold_be_bytes (n : nat) (v acc : Z) :
  0 <= v ->
  fold_left (fun a b => a * 256 + b) (be_bytes n v) acc
  = acc * 256 ^ Z.of_nat n + v mod 256 ^ Z.of_nat n.
Proof.
  intros Hv. revert acc. induction n as [| n IH]; intros acc.
  - cbn [be_bytes fold_left Z.of_nat]. rewrite Z.pow_0_r, Z.mod_1_r. lia.
  - cbn [be_bytes fold_left]. rewrite IH, Nat2Z.inj_succ, Z.pow_succ_r by lia.
    assert (Hpos : 0 < 256 ^ Z.of_nat n) by (apply Z.pow_pos_nonneg; lia).
    rewrite (Z.mul_comm 256 (256 ^ Z.of_nat n)).
    rewrite (Z.rem_mul_r v (256 ^ Z.of_nat n) 256) by lia.
    ring.
Qed.

(** [be_bytes] writes a number that fits big-endian: reading it back gives
    the number. *)
Lemma from_be_be_bytes (n : nat) (v : Z) :
  0 <= v < 256 ^ Z.of_nat n -> from_be (be_bytes n v) = v.
Proof.
  intros Hv. unfold from_be. rewrite fold_be_bytes by lia.
  rewrite Z.mod_small by lia. lia.
Qed.

Lemma IsOnCurve_fits (x y : Z) :
  IsOnCurve x y = true -> 0 <= x < 2 ^ 256 /\ 0 <= y < 2 ^ 256.
Proof.
  unfold IsOnCurve. rewrite !andb_true_iff.
  intros [[[[Hx0 Hxp] Hy0] Hyp] _].
  apply Z.leb_le in Hx0, Hy0. apply Z.ltb_lt in Hxp, Hyp.
  assert (Hp : P256_p < 2 ^ 256) by reflexivity.
  lia.
Qed.

Lemma panicIfNotOnCurve_passes (x y : Z) :
  IsOnCurve x y = true -> panicIfNotOnCurve x y = Ok tt.
Proof.
  intros H. unfold panicIfNotOnCurve. rewrite H.
  destruct ((x =? 0) && (y =? 0)); reflexivity.
Qed.

Lemma FillBytes_fits (v : Z) :
  0 <= v < 2 ^ 256 -> FillBytes 32 v = Ok (be_bytes 32 v).
Proof.
  intros Hv. unfold FillBytes. rewrite Z.abs_eq by lia.
  change (256 ^ Z.of_nat 32) with (2 ^ 256).
  destruct (Z.ltb_spec v (2 ^ 256)); [reflexivity | lia].
Qed.

(** C4: an approved REGISTER request of 64 bytes is answered by exactly: the
    byte 0x05; the public key of the new private key in the uncompressed
    SEC1 form, 65 bytes that begin with 0x04 and go on with the two
    coordinates, 32 bytes each, big-endian; one byte L, the length of the
    sealed key handle; the L bytes of the sealed key handle; the attestation
    certificate; the signature made with the new private key over
    0x00 ‖ application ‖ challenge ‖ handle_bytes ‖ public_key; and the
    status 0x9000.  The client port's key is a P-256 key (its public point
    is on the curve, so [elliptic.Marshal] does not panic, and
    [x509.MarshalECPrivateKey] encodes it), and the sealed handle fits the
    one-byte length field, as the spec asks of the sealing scheme. *)
Theorem register_response
    (message : bytes) (header : u2fMessageHeader) (request : bytes)
    (responseLength : Z) (encodedPrivateKey handle_bytes : bytes)
    (s s2 : State W) :
  decodeU2FMessage message = Ok (header, request, responseLength) ->
  Command header = u2f_COMMAND_REGISTER ->
  len request = 64 ->
  let challenge : bytes := firstn 32 request in
  let application : bytes := skipn 32 request in
  let privateKey := fst (NewPrivateKey (fst s)) in
  let s1 := (snd (NewPrivateKey (fst s)), snd s ++ [CallNewPrivateKey]) in
  let unencryptedKeyHandle :=
    {| PrivateKey := Some encodedPrivateKey;
       ApplicationID := Some application |} in
  IsOnCurve (X privateKey) (Y privateKey) = true ->
  x509_MarshalECPrivateKey privateKey = Some encodedPrivateKey ->
  sealKeyHandle unencryptedKeyHandle s1 = (Ok handle_bytes, s2) ->
  len handle_bytes <= 255 ->
  fst (ApproveU2FRegistration unencryptedKeyHandle (fst s2)) = true ->
  let public_key :=
    [0x04] ++ be_bytes 32 (X privateKey) ++ be_bytes 32 (Y privateKey) in
  let w3 := snd (ApproveU2FRegistration unencryptedKeyHandle (fst s2)) in
  let attestation_cert := fst (CreateAttestationCertificiate privateKey w3) in
  let signature :=
    fst (sign privateKey
              ([0x00] ++ application ++ challenge ++ handle_bytes ++ public_key)
              (snd (CreateAttestationCertificiate privateKey w3))) in
  fst (handleU2FMessage message s)
    = Ok ([0x05] ++ public_key ++ [len handle_bytes] ++ handle_bytes
          ++ attestation_cert ++ signature ++ [0x90; 0x00])
  /\ len public_key = 65
  /\ from_be (be_bytes 32 (X privateKey)) = X privateKey
  /\ from_be (be_bytes 32 (Y privateKey)) = Y privateKey
  /\ len challenge = 32
  /\ len application = 32.
Proof.
  intros Hdec Hcmd Hlen. cbv zeta. intros Hcurve Henc Hseal Hfit Happr.
  destruct (IsOnCurve_fits _ _ Hcurve) as [HX HY].
  split; [| split; [| split; [| split; [| split]]]];
    try (apply from_be_be_bytes; change (256 ^ Z.of_nat 32) with (2 ^ 256);
         assumption).
  - rewrite (dispatch_register _ _ _ _ s Hdec Hcmd).
    unfold handleU2FRegister, slice_to, slice_from.
    assert (E32 : (32 <=? len request) = true) by (apply Z.leb_le; lia).
    rewrite E32. step_m.
    rewrite (len_firstn request 32), (len_skipn request 32), Hlen by lia.
    rewrite Z.eqb_refl. step_m.
    change (64 - 32 =? 32) with true. step_m.
    change (Z.to_nat 32) with 32%nat.
    unfold elliptic_Marshal.
    rewrite (panicIfNotOnCurve_passes _ _ Hcurve).
    rewrite (FillBytes_fits _ HX), (FillBytes_fits _ HY).
    cbn [exec_bind]. step_m.
    rewrite Henc. step_m.
    rewrite (bind_eq_Ok _ _ _ _ _ Hseal). step_m.
    rewrite Happr. cbn [negb]. step_m.
    rewrite (Z.mod_small (len handle_bytes) 256)
      by (pose proof (len_nonneg handle_bytes); lia).
    unfold Flatten. cbn [List.concat fst].
    rewrite !app_nil_r. cbn [app].
    rewrite <- !app_assoc. reflexivity.
  - rewrite !len_app, !len_be_bytes. reflexivity.
  - apply (len_firstn request 32). lia.
  - change 32%nat with (Z.to_nat 32).
    rewrite (len_skipn request 32) by lia. lia.
Qed.

End ServerFacts.

(** * Properties of the OUT lock *)

Section OutputFacts.

Import Output.

Lemma nth_error_set_nth_eq {A} (l : list A) (k : nat) (x y : A) :
  nth_error l k = Some y -> nth_error (set_nth k x l) k = Some x.
Proof.
  revert k. induction l as [| h t IH]; intros [| k]; cbn; try discriminate.
  - reflexivity.
  - apply IH.
Qed.

Lemma nth_error_set_nth_ne {A} (l : list A) (k k' : nat) (x : A) :
  k' <> k -> nth_error (set_nth k x l) k' = nth_error l k'.
Proof.
  revert k k'. induction l as [| h t IH]; intros [| k] [| k'] Hne; cbn;
    try reflexivity; try congruence.
  apply IH. congruence.
Qed.

Lemma nth_error_snoc {A} (l : list A) (x : A) (k : nat) (y : A) :
  nth_error (l ++ [x]) k = Some y -> nth_error l k = Some y \/ y = x.
Proof.
  intros H. destruct (Nat.lt_ge_cases k (List.length l)) as [Hlt | Hge].
  - left. rewrite nth_error_app1 in H by exact Hlt. exact H.
  - right. rewrite nth_error_app2 in H by exact Hge.
    destruct (k - List.length l)%nat as [| n]; cbn in H.
    + congruence.
    + destruct n; discriminate.
Qed.

Lemma concat_snoc {A} (ls : list (list A)) (l : list A) :
  List.concat (ls ++ [l]) = List.concat ls ++ l.
Proof. rewrite concat_app. cbn. rewrite app_nil_r. reflexivity. Qed.

Lemma serial_locked (runs : list (Z * option bytes)) (k : nat) (g : goroutine)
    (gs : list goroutine) (tr : list event) :
  nth_error gs k = Some g -> inside (at_pc g) = true -> others_outside k gs ->
  tr = List.concat (map handler_events runs) ++ events_so_far g ->
  serial {| outputLock := true; goroutines := gs; trace := tr |}.
Proof. intros. exists runs. cbn. exists k, g. auto. Qed.

Lemma serial_free (runs : list (Z * option bytes))
    (gs : list goroutine) (tr : list event) :
  all_outside gs -> tr = List.concat (map handler_events runs) ->
  serial {| outputLock := false; goroutines := gs; trace := tr |}.
Proof. intros. exists runs. cbn. auto. Qed.

Lemma others_outside_set_nth (k : nat) (g : goroutine) (gs : list goroutine) :
  others_outside k gs -> others_outside k (set_nth k g gs).
Proof.
  intros H k' g' Hne Hk'. rewrite nth_error_set_nth_ne in Hk' by exact Hne.
  exact (H k' g' Hne Hk').
Qed.

Lemma all_outside_others (k : nat) (gs : list goroutine) :
  all_outside gs -> others_outside k gs.
Proof. intros H k' g' _ Hk'. exact (H k' g' Hk'). Qed.

Lemma step_serial (d d' : device) (c : choice) :
  serial d -> step d c = Some d' -> serial d'.
Proof.
  intros [runs Inv] Hstep. destruct c as [i buffer | k answer]; cbn in Hstep.
  - (* an URB arrives *)
    injection Hstep as <-.
    destruct (outputLock d).
    + destruct Inv as (k & g & Hk & Hin & Hothers & Htr).
      apply (serial_locked runs k g); try assumption.
      * rewrite nth_error_app1; [exact Hk |].
        apply nth_error_Some. congruence.
      * intros k' g' Hne Hk'. apply nth_error_snoc in Hk' as [Hk' | ->].
        -- exact (Hothers k' g' Hne Hk').
        -- reflexivity.
    + destruct Inv as (Hall & Htr). apply (serial_free runs); [| exact Htr].
      intros k g Hk. apply nth_error_snoc in Hk as [Hk | ->].
      * exact (Hall k g Hk).
      * reflexivity.
  - (* a goroutine runs one statement *)
    destruct (nth_error (goroutines d) k) as [g |] eqn:Hk; [| discriminate].
    destruct (step_goroutine (outputLock d) answer g)
      as [[[locked g'] ev] |] eqn:Hg; [| discriminate].
    injection Hstep as <-.
    unfold step_goroutine in Hg.
    destruct (outputLock d) eqn:Hlock.
    + destruct Inv as (k0 & g0 & Hk0 & Hin & Hothers & Htr).
      destruct (Nat.eq_dec k k0) as [-> | Hne].
      * assert (g0 = g) by congruence. subst g0.
        destruct g as [i buf p]. cbn in Hin, Hg, Htr.
        destruct p as [| | r | r | r |]; try discriminate;
          injection Hg as <- <- <-.
        -- (* GetResponse *)
           eapply (serial_locked runs k0).
           ++ eapply nth_error_set_nth_eq; eassumption.
           ++ destruct answer; reflexivity.
           ++ apply others_outside_set_nth, Hothers.
           ++ rewrite Htr, <- app_assoc. destruct answer; reflexivity.
        -- (* copy *)
           eapply (serial_locked runs k0).
           ++ eapply nth_error_set_nth_eq; eassumption.
           ++ reflexivity.
           ++ apply others_outside_set_nth, Hothers.
           ++ rewrite Htr, <- app_assoc. reflexivity.
        -- (* onFinish *)
           eapply (serial_locked runs k0).
           ++ eapply nth_error_set_nth_eq; eassumption.
           ++ reflexivity.
           ++ apply others_outside_set_nth, Hothers.
           ++ rewrite Htr, <- app_assoc. reflexivity.
        -- (* Unlock *)
           apply (serial_free (runs ++ [(i, r)])).
           ++ intros k' g' Hk'.
              destruct (Nat.eq_dec k' k0) as [-> | Hne].
              ** rewrite (nth_error_set_nth_eq _ _ _ _ Hk) in Hk'.
                 injection Hk' as <-. reflexivity.
              ** rewrite nth_error_set_nth_ne in Hk' by exact Hne.
                 exact (Hothers k' g' Hne Hk').
           ++ rewrite Htr, map_app, concat_app, <- app_assoc.
              cbn [map List.concat]. rewrite app_nil_r.
              destruct r; reflexivity.
      * pose proof (Hothers k g Hne Hk) as Hout.
        destruct (at_pc g); discriminate.
    + destruct Inv as (Hall & Htr).
      pose proof (Hall k g Hk) as Hout.
      destruct g as [i buf p]. cbn in Hout, Hg.
      destruct p; try discriminate. injection Hg as <- <- <-.
      eapply (serial_locked runs k).
      * eapply nth_error_set_nth_eq; eassumption.
      * reflexivity.
      * apply others_outside_set_nth, all_outside_others, Hall.
      * rewrite Htr. reflexivity.
Qed.

Lemma run_serial (cs : list choice) (d d' : device) :
  serial d -> run d cs = Some d' -> serial d'.
Proof.
  revert d. induction cs as [| c cs IH]; intros d Hs Hrun; cbn in Hrun.
  - injection Hrun as <-. exact Hs.
  - destruct (step d c) as [d1 |] eqn:Hstep; [| discriminate].
    exact (IH d1 (step_serial d d1 c Hs Hstep) Hrun).
Qed.

Lemma serial_NewUSBDevice : serial NewUSBDevice.
Proof.
  exists []. cbn. split; [| reflexivity].
  intros [| k] g H; discriminate.
Qed.

(** ** Whole handler runs in the trace *)

Lemma handler_events_shape (i : Z) (answer : option bytes) :
  exists body, handler_events (i, answer) = EvLock i :: body /\ lock_free body.
Proof.
  destruct answer as [r |]; eexists; (split; [reflexivity |]);
    intros j Hin; cbn in Hin; intuition discriminate.
Qed.

Lemma events_so_far_shape (g : goroutine) :
  events_so_far g = []
  \/ exists body, events_so_far g = EvLock (id g) :: body /\ lock_free body.
Proof.
  unfold events_so_far. destruct (at_pc g) as [| | r | r | [r |] |];
    try (left; reflexivity);
    right; eexists; (split; [reflexivity |]);
    intros j Hin; cbn in Hin; intuition discriminate.
Qed.

Lemma peel_lock_free (body rest pre post : list event) (i : Z) :
  lock_free body ->
  body ++ rest = pre ++ EvLock i :: post ->
  exists pre', pre = body ++ pre' /\ rest = pre' ++ EvLock i :: post.
Proof.
  intros Hfree Heq. apply app_eq_app in Heq as [l [[Hb Hp] | [Hb Hp]]].
  - destruct l as [| e l].
    + exists []. rewrite app_nil_r in Hb. subst. split; [| symmetry; exact Hp].
      rewrite app_nil_r. reflexivity.
    + injection Hp as <- _. exfalso. apply (Hfree i). rewrite Hb.
      apply in_or_app. right. left. reflexivity.
  - exists l. split; assumption.
Qed.

(** Where a [Lock] event stands in a trace of whole runs followed by the
    events of a run in progress: at the head of a whole run, or at the head
    of the run in progress. *)
Lemma lock_event_position (runs : list (Z * option bytes))
    (current pre post : list event) (i : Z) :
  (current = [] \/ exists j body, current = EvLock j :: body /\ lock_free body) ->
  List.concat (map handler_events runs) ++ current = pre ++ EvLock i :: post ->
  (exists answer later,
      EvLock i :: post = handler_events (i, answer) ++ later)
  \/ current = EvLock i :: post.
Proof.
  intros Hcur. revert pre.
  induction runs as [| [i0 a0] runs IH]; intros pre Heq; cbn [map List.concat] in Heq.
  - cbn in Heq. destruct Hcur as [-> | (j & body & -> & Hfree)].
    + destruct pre; discriminate.
    + destruct pre as [| e pre].
      * right. exact Heq.
      * injection Heq as <- Heq. exfalso. apply (Hfree i). rewrite Heq.
        apply in_or_app. right. left. reflexivity.
  - destruct (handler_events_shape i0 a0) as (body & Hshape & Hfree).
    rewrite <- app_assoc, Hshape in Heq. cbn [app] in Heq.
    destruct pre as [| e pre].
    + injection Heq as -> Heq. left. exists a0. eexists.
      rewrite Hshape. cbn [app]. rewrite Heq. reflexivity.
    + injection Heq as <- Heq.
      apply peel_lock_free in Heq as (pre' & _ & Heq); [| exact Hfree].
      exact (IH pre' Heq).
Qed.

(** C9, amended: the bodies of the OUT handlers run under one lock, one at a
    time.  At any moment at most one goroutine is between its [Lock] and its
    [Unlock], and the trace of the device is a sequence of whole handler
    runs followed by the events of the one run in progress, if any.  So for
    two OUT URBs, the one whose handler takes the lock first has its
    [GetResponse] answered, and when the answer is a response has it copied
    into its transfer buffer and [onFinish] invoked, and the lock released,
    before the handler of the other takes the lock and begins.  When
    [GetResponse] answers nil nothing is copied and [onFinish] is not
    invoked. *)
Theorem output_is_serialized (d : device) :
  reachable d ->
  (forall k1 k2 g1 g2,
      nth_error (goroutines d) k1 = Some g1 ->
      nth_error (goroutines d) k2 = Some g2 ->
      inside (at_pc g1) = true -> inside (at_pc g2) = true -> k1 = k2)
  /\ (exists runs current,
        trace d = List.concat (map handler_events runs) ++ current
        /\ (current = []
            \/ exists k g,
                 nth_error (goroutines d) k = Some g
                 /\ inside (at_pc g) = true
                 /\ current = events_so_far g))
  /\ (forall pre i mid j post,
        trace d = pre ++ EvLock i :: mid ++ EvLock j :: post ->
        exists answer mid',
          EvLock i :: mid = handler_events (i, answer) ++ mid').
Proof.
  intros [cs Hrun].
  pose proof (run_serial cs _ _ serial_NewUSBDevice Hrun) as [runs Inv].
  assert (Hcur : exists current,
             trace d = List.concat (map handler_events runs) ++ current
             /\ (current = []
                 \/ exists k g,
                      nth_error (goroutines d) k = Some g
                      /\ inside (at_pc g) = true
                      /\ current = events_so_far g)).
  { destruct (outputLock d).
    - destruct Inv as (k & g & Hk & Hin & _ & Htr).
      exists (events_so_far g). split; [exact Htr |].
      right. exists k, g. auto.
    - destruct Inv as (_ & Htr). exists []. rewrite app_nil_r. auto. }
  split; [| split].
  - intros k1 k2 g1 g2 H1 H2 I1 I2.
    destruct (outputLock d).
    + destruct Inv as (k & g & _ & _ & Hothers & _).
      destruct (Nat.eq_dec k1 k) as [-> | N1];
        [| rewrite (Hothers k1 g1 N1 H1) in I1; discriminate].
      destruct (Nat.eq_dec k2 k) as [-> | N2];
        [reflexivity | rewrite (Hothers k2 g2 N2 H2) in I2; discriminate].
    + destruct Inv as (Hall & _).
      rewrite (Hall k1 g1 H1) in I1. discriminate.
  - exists runs. exact Hcur.
  - intros pre i mid j post Htr.
    destruct Hcur as (current & Hdec & Hshape).
    assert (Hcur' : current = []
              \/ exists j body, current = EvLock j :: body /\ lock_free body).
    { destruct Hshape as [-> | (k & g & _ & _ & ->)]; [left; reflexivity |].
      destruct (events_so_far_shape g) as [-> | (body & -> & Hfree)];
        [left; reflexivity | right; eauto]. }
    rewrite Hdec in Htr.
    destruct (lock_event_position runs current pre _ i Hcur' Htr)
      as [(answer & later & Heq) | Heq].
    + exists answer.
      destruct (handler_events_shape i answer) as (body & Hshape' & Hfree).
      rewrite Hshape' in Heq |- *. cbn [app] in Heq |- *.
      injection Heq as Heq. symmetry in Heq.
      apply peel_lock_free in Heq as (mid' & -> & _); [| exact Hfree].
      exists mid'. reflexivity.
    + exfalso. destruct Hcur' as [-> | (j' & body & -> & Hfree)];
        [discriminate |].
      injection Heq as _ ->. apply (Hfree j).
      apply in_or_app. right. left. reflexivity.
Qed.

End OutputFacts.

(** * The fixture satisfies what is asked of the libraries *)

Section FixtureFacts.

Import U2F Fixture.

Lemma take_app (d rest : bytes) : take (len d) (d ++ rest) = Some (d, rest).
Proof.
  unfold take. rewrite len_app.
  pose proof (len_nonneg d). pose proof (len_nonneg rest).
  replace ((0 <=? len d) && (len d <=? len d + len rest)) with true
    by (symmetry; apply andb_true_iff; split; apply Z.leb_le; lia).
  unfold len. rewrite Nat2Z.id, firstn_length_app, skipn_length_app.
  reflexivity.
Qed.

Lemma read_chunks_app (d rest : bytes) :
  read_chunks (cbor_chunks d ++ rest) = Some (d, rest).
Proof.
  induction d as [| b d IH]; [reflexivity |].
  cbn [cbor_chunks app read_chunks]. rewrite IH. reflexivity.
Qed.

Lemma read_bstr_app (d rest : bytes) :
  read_bstr (cbor_bstr d ++ rest) = Some (d, rest).
Proof.
  unfold cbor_bstr. pose proof (len_nonneg d) as Hn.
  destruct (Z.ltb_spec (len d) 24) as [H24 | H24].
  - cbn [app read_bstr].
    replace ((64 <=? 64 + len d) && (64 + len d <? 88)) with true
      by (symmetry; apply andb_true_iff; split;
          [apply Z.leb_le | apply Z.ltb_lt]; lia).
    replace (64 + len d - 64) with (len d) by lia. apply take_app.
  - destruct (Z.ltb_spec (len d) 256) as [H256 | H256].
    + cbn [app read_bstr]. cbn [Z.leb Z.ltb Z.compare Pos.compare Pos.compare_cont
        andb Z.eqb Pos.eqb]. apply take_app.
    + destruct (Z.ltb_spec (len d) 65536) as [H64k | H64k].
      * cbn [app read_bstr]. cbn [Z.leb Z.ltb Z.compare Pos.compare Pos.compare_cont
          andb Z.eqb Pos.eqb].
        replace (len d / 256 * 256 + len d mod 256) with (len d)
          by (Z.to_euclidean_division_equations; lia).
        apply take_app.
      * cbn [app read_bstr]. cbn [Z.leb Z.ltb Z.compare Pos.compare Pos.compare_cont
          andb Z.eqb Pos.eqb]. apply read_chunks_app.
Qed.

Lemma cbor_bstr_head (d : bytes) :
  exists h t, cbor_bstr d = h :: t /\ (h =? 246) = false.
Proof.
  unfold cbor_bstr. pose proof (len_nonneg d) as Hn.
  destruct (Z.ltb_spec (len d) 24);
    [| destruct (Z.ltb_spec (len d) 256);
       [| destruct (Z.ltb_spec (len d) 65536)]];
    eexists; eexists; (split; [reflexivity |]);
    try reflexivity.
  apply Z.eqb_neq. lia.
Qed.

Lemma read_field_app (f : option bytes) (rest : bytes) :
  read_field (cbor_field f ++ rest) = Some (f, rest).
Proof.
  destruct f as [d |]; [| reflexivity].
  cbn [cbor_field].
  destruct (cbor_bstr_head d) as (h & t & Heq & Hh).
  unfold read_field.
  pose proof (read_bstr_app d rest) as Hread.
  rewrite Heq in *. cbn [app] in *. rewrite Hh, Hread. reflexivity.
Qed.

Lemma read_pair_cbor_pair (a b : option bytes) :
  read_pair (cbor_pair a b) = Some (a, b).
Proof.
  unfold cbor_pair, read_pair.
  cbn [Z.eqb Pos.eqb andb].
  rewrite read_field_app. cbn [Z.eqb Pos.eqb].
  rewrite <- (app_nil_r (cbor_field b)), read_field_app. reflexivity.
Qed.

Lemma fixture_open_seal (key data : bytes) (w : Z) :
  open key (fst (seal key data w)) = Ok data.
Proof.
  change (open_box key (fst (seal_box key data w)) = Ok data).
  unfold open_box, seal_box. cbn [fst Data IV].
  rewrite rev_app_distr. cbn [rev app]. rewrite rev_involutive, Z.eqb_refl.
  reflexivity.
Qed.

Lemma fixture_box_roundtrip (b : encryptedBox) :
  Unmarshal_encryptedBox (MarshalCBOR_encryptedBox b) = Some b.
Proof.
  change (match read_pair (cbor_pair (Some (Data b)) (Some (IV b))) with
          | Some (Some d, Some iv) => Some {| Data := d; IV := iv |}
          | _ => None
          end = Some b).
  rewrite read_pair_cbor_pair. destruct b; reflexivity.
Qed.

Lemma fixture_handle_roundtrip (k : KeyHandle) :
  Unmarshal_KeyHandle (MarshalCBOR_KeyHandle k) = Some k.
Proof.
  change (match read_pair (cbor_pair (PrivateKey k) (ApplicationID k)) with
          | Some (p, a) => Some {| PrivateKey := p; ApplicationID := a |}
          | None => None
          end = Some k).
  rewrite read_pair_cbor_pair. destruct k; reflexivity.
Qed.

End FixtureFacts.

(** * The statements on concrete APDUs and schedules *)

Section Scenarios.

Import U2F Fixture.

(** Discharge the next premise of [H] by evaluation. *)
Ltac feed H tac :=
  match type of H with
  | ?P -> _ =>
      let HP := fresh "HP" in
      assert (HP : P) by tac; specialize (H HP); clear HP
  end.

(** Scenario S1: VERSION. *)
Example version_response :
  fst (handleU2FMessage [0x00; 0x03; 0x00; 0x00] (16, []))
  = Ok [0x55; 0x32; 0x46; 0x5F; 0x56; 0x32; 0x90; 0x00].
Proof. reflexivity. Qed.

(** The public point of the fixture's key is on P-256:
    y^2 = x^3 - 3x + b (mod p). *)
Example base_key_on_curve :
  let p := 2 ^ 256 - 2 ^ 224 + 2 ^ 192 + 2 ^ 96 - 1 in
  let b := 0x5ac635d8aa3a93e7b3ebbd55769886bc651d06b0cc53b0f63bce3c3e27d2604b in
  (Y base_key ^ 2) mod p = (X base_key ^ 3 - 3 * X base_key + b) mod p.
Proof. vm_compute. reflexivity. Qed.

Example base_key_IsOnCurve : IsOnCurve (X base_key) (Y base_key) = true.
Proof. vm_compute. reflexivity. Qed.

(** A point off the curve is not marshalled: [elliptic.Marshal] panics. *)
Example marshal_off_curve :
  elliptic_Marshal 1 2
  = Panic "crypto/elliptic: attempted operation on invalid point".
Proof. vm_compute. reflexivity. Qed.

(** C1, as the claim states it, fails: a REGISTER APDU with a request of 10
    bytes is not answered with SW_WRONG_DATA; the slice [request[:32]]
    panics and there is no response. *)
Lemma register_short_request_aborts :
  decodeU2FMessage short_register_apdu = Ok (register_header, repeat 66 10, 0)
  /\ len (repeat 66 10) <> 64
  /\ handleU2FMessage short_register_apdu (16, [])
     = (Panic "slice bounds out of range", (16, []))
  /\ fst (handleU2FMessage short_register_apdu (16, []))
     <> Ok (ToBE16 u2f_SW_WRONG_DATA).
Proof.
  repeat split; try reflexivity; vm_compute; discriminate.
Qed.

Lemma register_length_check_witness :
  (exists msg,
      handleU2FMessage short_register_apdu (16, []) = (Panic msg, (16, []))
      /\ (msg = "slice bounds out of range"%string
          \/ msg = "Application is not 32 bytes"%string))
  /\ fst (handleU2FMessage s4_apdu (16, [])) <> Ok (ToBE16 u2f_SW_WRONG_DATA).
Proof.
  split.
  - apply (register_length_check short_register_apdu register_header
             (repeat 66 10) 0 (16, [])); try reflexivity.
    vm_compute. discriminate.
  - apply (register_length_check s4_apdu register_header s4_request 0 (16, []));
      reflexivity.
Defined.

Lemma seal_open_KeyHandle_witness :
  exists boxBytes,
    fst (sealKeyHandle s4_key_handle (17, [])) = Ok boxBytes
    /\ fst (openKeyHandle boxBytes (17, [])) = Ok (Some s4_key_handle).
Proof.
  apply (seal_open_KeyHandle s4_key_handle
           (slice_bytes (marshal_key base_key)) s4_application
           (17, []) (17, [])
           fixture_open_seal fixture_box_roundtrip
           (fun k _ _ _ _ _ _ => fixture_handle_roundtrip k));
    try reflexivity.
  vm_compute. discriminate.
Defined.

Lemma authenticate_sign_response_witness :
  fst (handleU2FMessage (auth_apdu 3 (auth_request s4_application s4_handle))
                        (16, []))
  = Ok ([1] ++ [0; 0; 0; 16] ++ [48; 6; 2; 1; 50; 2; 1; 17] ++ [144; 0]).
Proof.
  pose proof (authenticate_sign_response
                (auth_apdu 3 (auth_request s4_application s4_handle))
                (authenticate_header 3) (auth_request s4_application s4_handle) 0
                s4_challenge s4_application s4_handle [] s4_key_handle
                (slice_bytes (marshal_key base_key)) base_key
                (16, []) (16, [CallSealingEncryptionKey])) as H.
  do 9 (feed H ltac:(vm_compute; reflexivity)).
  feed H ltac:(left; split; reflexivity).
  cbv zeta in H. destruct H as [H _].
  rewrite H. vm_compute. reflexivity.
Defined.

Lemma register_response_witness :
  fst (handleU2FMessage s4_apdu (16, []))
  = Ok ([5] ++ ([4] ++ be_bytes 32 (X base_key) ++ be_bytes 32 (Y base_key))
        ++ [154] ++ s4_handle ++ [48; 3; 2; 1; 0]
        ++ [48; 6; 2; 1; 200; 2; 1; 18] ++ [144; 0]).
Proof.
  pose proof (register_response s4_apdu register_header s4_request 0
                (slice_bytes (marshal_key base_key)) s4_handle
                (16, [])
                (18, [CallNewPrivateKey; CallSealingEncryptionKey; CallSeal]))
    as H.
  cbv zeta in H.
  do 6 (feed H ltac:(vm_compute; reflexivity)).
  feed H ltac:(vm_compute; discriminate).
  feed H ltac:(vm_compute; reflexivity).
  destruct H as [H _].
  rewrite H. vm_compute. reflexivity.
Defined.


Lemma authenticate_nil_private_key_witness :
  fst (handleU2FMessage (auth_apdu 8 (auth_request s4_application nil_handle))
                        (16, []))
  = Ok [0x6A; 0x80].
Proof.
  apply (@authenticate_nil_private_key Z client crypto
           (auth_apdu 8 (auth_request s4_application nil_handle))
           (authenticate_header 8) (auth_request s4_application nil_handle) 0
           s4_challenge s4_application nil_handle []
           (fst (seal_box [11; 22; 33; 44]
                   (cbor_pair None (Some s4_application)) 17))
           (cbor_pair None (Some s4_application))
           nil_key_handle (16, []));
    vm_compute; reflexivity.
Defined.

(** C9, as the claim states it, fails.  When [GetResponse] answers nil for
    the first URB its handler leaves without a copy and without [onFinish],
    and the second URB is processed all the same.  And of two URBs submitted
    one after the other, the goroutine of the second may take the lock
    first: the second is then served before the first begins. *)
Lemma out_completion_not_in_order :
  (Output.run Output.NewUSBDevice timeout_schedule
     = Some (device_after timeout_schedule)
   /\ In (Output.EvOnFinish 2) (Output.trace (device_after timeout_schedule))
   /\ ~ In (Output.EvCopy 1) (Output.trace (device_after timeout_schedule))
   /\ ~ In (Output.EvOnFinish 1) (Output.trace (device_after timeout_schedule)))
  /\ (Output.run Output.NewUSBDevice overtaking_schedule
        = Some (device_after overtaking_schedule)
      /\ Output.trace (device_after overtaking_schedule)
         = Output.handler_events (2, Some [7; 7])
           ++ Output.handler_events (1, Some [9])).
Proof.
  split.
  - split; [reflexivity |]. split; [vm_compute; tauto |].
    split; vm_compute; intuition discriminate.
  - split; reflexivity.
Qed.

Lemma output_is_serialized_witness :
  exists answer mid',
    Output.EvLock 1 :: [Output.EvGetResponse 1 None; Output.EvUnlock 1]
    = Output.handler_events (1, answer) ++ mid'.
Proof.
  assert (Hreach : Output.reachable (device_after timeout_schedule))
    by (exists timeout_schedule; reflexivity).
  destruct (output_is_serialized _ Hreach) as (_ & _ & H).
  apply (H [] 1 _ 2
           [Output.EvGetResponse 2 (Some [7; 7]); Output.EvCopy 2;
            Output.EvOnFinish 2; Output.EvUnlock 2]).
  reflexivity.
Defined.

End Scenarios.

(** * Further properties of the U2F application layer *)

Section ServerExtras.

Import U2F Host.

Context {W : Type} {client : FIDOClient W} {crypto : Crypto W}.

Ltac run_m :=
  repeat (first
    [ rewrite bind_ret | rewrite bind_panic | rewrite bind_lift_Ok
    | rewrite bind_lift_Panic | rewrite bind_perform | rewrite bind_bind
    | rewrite bind_Assert_true | rewrite bind_Assert_false
    | rewrite bind_CheckErr_Some | rewrite bind_CheckErr_None ];
    cbv beta iota; cbn [fst snd]).

(** ** Decoding *)

Lemma len_cons {A} (x : A) (l : list A) : (len (x :: l) =? 0) = false.
Proof. apply Z.eqb_neq. unfold len. cbn [List.length]. lia. Qed.

Lemma ReadBE16_ToBE16 (v : Z) (rest : bytes) :
  0 <= v < 65536 -> ReadBE16 (ToBE16 v ++ rest) = Ok (v, rest).
Proof.
  intros Hv. unfold ToBE16, ReadBE16. cbn [app]. do 2 f_equal.
  Z.to_euclidean_division_equations. lia.
Qed.

Lemma Read_one (b : Z) (rest : bytes) : Read (b :: rest) 1 = Ok ([b], rest).
Proof. reflexivity. Qed.

(** X1: decodeU2FMessage undoes the framing.  An APDU made of the four
    header bytes alone, of the header and a response length, of the header
    and a request with its length, or of all three, decodes to that header,
    that request and that response length (0 when there is none). *)
Theorem decode_encode (h : u2fMessageHeader) (request : bytes)
    (responseLength : option Z) :
  len request < 65536 ->
  (forall le, responseLength = Some le -> 0 <= le < 65536) ->
  decodeU2FMessage (encodeU2FMessage h request responseLength)
  = Ok (h, request, match responseLength with Some le => le | None => 0 end).
Proof.
  intros Hlen Hle. destruct h as [cla ins p1 p2].
  unfold encodeU2FMessage, header_bytes, decodeU2FMessage. cbn [Cla Command Param1 Param2 app ReadBE_header exec_bind].
  destruct request as [| x request].
  - destruct responseLength as [le |]; [| reflexivity].
    rewrite len_cons, Read_one. cbn [exec_bind nth Z.eqb negb].
    rewrite <- (app_nil_r (ToBE16 le)), ReadBE16_ToBE16 by auto.
    reflexivity.
  - pose proof (len_nonneg (x :: request)) as Hnn.
    destruct responseLength as [le |].
    + rewrite len_cons, Read_one. cbn [exec_bind nth Z.eqb negb].
      rewrite ReadBE16_ToBE16 by lia. cbn [exec_bind app].
      rewrite len_cons.
      change (x :: request ++ ToBE16 le) with ((x :: request) ++ ToBE16 le).
      rewrite Read_app by reflexivity. cbn [exec_bind].
      unfold ToBE16 at 1. rewrite len_cons.
      rewrite <- (app_nil_r (ToBE16 le)), ReadBE16_ToBE16 by auto.
      reflexivity.
    + rewrite len_cons, Read_one. cbn [exec_bind nth Z.eqb negb].
      rewrite ReadBE16_ToBE16 by lia. cbn [exec_bind].
      rewrite len_cons.
      rewrite <- (app_nil_r (x :: request)) at 1.
      rewrite Read_app by reflexivity. reflexivity.
Qed.

(** X2: an APDU whose byte after the header is not zero (a short-length
    framing) is not answered: decodeU2FMessage panics, and with it
    handleU2FMessage, before any call to the client port. *)
Theorem decode_rejects_short_framing (h : u2fMessageHeader) (b : Z)
    (rest : bytes) (s : State W) :
  b <> 0 ->
  decodeU2FMessage (header_bytes h ++ b :: rest)
    = Panic "Invalid U2F Payload length"
  /\ handleU2FMessage (header_bytes h ++ b :: rest) s
     = (Panic "Invalid U2F Payload length", s).
Proof.
  intros Hb.
  assert (Hdec : decodeU2FMessage (header_bytes h ++ b :: rest)
                 = Panic "Invalid U2F Payload length").
  { unfold header_bytes, decodeU2FMessage.
    cbn [app ReadBE_header exec_bind].
    rewrite len_cons, Read_one. cbn [exec_bind nth].
    apply Z.eqb_neq in Hb. rewrite Hb. reflexivity. }
  split; [exact Hdec |].
  unfold handleU2FMessage. rewrite Hdec. reflexivity.
Qed.

(** X3: only REGISTER and AUTHENTICATE reach the client port.  VERSION is
    answered with "U2F_V2" and 0x9000 whatever its parameters and payload,
    and any other INS is not answered at all: handleU2FMessage panics (no
    SW_INS_NOT_SUPPORTED is returned).  In both cases the outside state and
    the call log are left as they were. *)
Theorem dispatch_without_client
    (message : bytes) (header : u2fMessageHeader) (request : bytes)
    (responseLength : Z) (s : State W) :
  decodeU2FMessage message = Ok (header, request, responseLength) ->
  Command header <> u2f_COMMAND_REGISTER ->
  Command header <> u2f_COMMAND_AUTHENTICATE ->
  (Command header = u2f_COMMAND_VERSION ->
     handleU2FMessage message s
     = (Ok [0x55; 0x32; 0x46; 0x5F; 0x56; 0x32; 0x90; 0x00], s))
  /\ (Command header <> u2f_COMMAND_VERSION ->
        handleU2FMessage message s = (Panic "Invalid U2F Command", s)).
Proof.
  intros Hdec Hreg Hauth.
  unfold handleU2FMessage, bind, lift. rewrite Hdec. cbn [fst snd].
  split.
  - intros ->. reflexivity.
  - intros Hver.
    apply Z.eqb_neq in Hreg, Hauth, Hver. rewrite Hreg, Hauth, Hver.
    reflexivity.
Qed.

(** ** Every path of REGISTER and AUTHENTICATE *)

Ltac log_eq := cbn [snd fst]; rewrite <- ?app_assoc; reflexivity.

Lemma authenticate_outcomes (header : u2fMessageHeader) (request : bytes)
    (s : State W) :
  let r := handleU2FAuthenticate header request s in
  let log := snd (snd r) in
  (exists msg,
      fst r = Panic msg
      /\ (log = snd s \/ log = snd s ++ [CallSealingEncryptionKey]))
  \/ (exists sw,
        fst r = Ok (ToBE16 sw)
        /\ (sw = u2f_SW_WRONG_DATA \/ sw = u2f_SW_CONDITIONS_NOT_SATISFIED
            \/ sw = u2f_SW_WRONG_LENGTH)
        /\ (log = snd s \/ log = snd s ++ [CallSealingEncryptionKey]
            \/ log = snd s ++ [CallSealingEncryptionKey;
                               CallApproveU2FAuthentication]))
  \/ (exists counter signature,
        fst r = Ok ([0x01] ++ ToBE32 counter ++ signature ++ [0x90; 0x00])
        /\ (log = snd s ++ [CallSealingEncryptionKey;
                            CallNewAuthenticationCounterId; CallSign]
            \/ log = snd s ++ [CallSealingEncryptionKey;
                               CallApproveU2FAuthentication;
                               CallNewAuthenticationCounterId; CallSign])).
Proof.
  cbv zeta. unfold handleU2FAuthenticate.
  destruct (Read request 32) as [[challenge r1] | m]; run_m;
    [| left; eexists; split; [reflexivity | left; reflexivity]].
  destruct (Read r1 32) as [[application r2] | m]; run_m;
    [| left; eexists; split; [reflexivity | left; reflexivity]].
  destruct (ReadLE8 r2) as [[keyHandleLength r3] | m]; run_m;
    [| left; eexists; split; [reflexivity | left; reflexivity]].
  destruct (Read r3 keyHandleLength) as [[handle r4] | m]; run_m;
    [| left; eexists; split; [reflexivity | left; reflexivity]].
  unfold openKeyHandle.
  destruct (Unmarshal_encryptedBox handle) as [box |]; run_m;
    [| right; left; eexists; split; [reflexivity |];
       split; [left; reflexivity | left; reflexivity]].
  destruct (open _ box) as [data | m]; run_m;
    [| left; eexists; split; [reflexivity | right; reflexivity]].
  destruct (Unmarshal_KeyHandle data) as [keyHandle |]; run_m;
    [| right; left; eexists; split; [reflexivity |];
       split; [left; reflexivity | right; left; reflexivity]].
  destruct (is_nil (PrivateKey keyHandle)
            || bytes_differ (slice_bytes (ApplicationID keyHandle)) application);
    [right; left; eexists; split; [reflexivity |];
     split; [left; reflexivity | right; left; reflexivity] |].
  destruct (x509_ParseECPrivateKey _) as [privateKey |]; run_m;
    [| left; eexists; split; [reflexivity | right; reflexivity]].
  destruct (Param1 header =? u2f_AUTH_CONTROL_CHECK_ONLY);
    [right; left; eexists; split; [reflexivity |];
     split; [right; left; reflexivity | right; left; reflexivity] |].
  destruct (Param1 header =? u2f_AUTH_CONTROL_ENFORCE_USER_PRESENCE_AND_SIGN);
    cbn [orb].
  - run_m.
    destruct (fst (ApproveU2FAuthentication keyHandle _)); cbn [negb]; run_m.
    + right; right. eexists; eexists. split.
      * unfold Flatten. cbn [List.concat app fst]. rewrite app_nil_r.
        reflexivity.
      * right. log_eq.
    + right; left. eexists; split; [reflexivity |].
      split; [right; left; reflexivity | right; right; log_eq].
  - destruct (Param1 header =? u2f_AUTH_CONTROL_SIGN).
    + run_m. cbn [negb]. run_m.
      right; right. eexists; eexists. split.
      * unfold Flatten. cbn [List.concat app fst]. rewrite app_nil_r.
        reflexivity.
      * left. log_eq.
    + right; left. eexists; split; [reflexivity |].
      split; [right; right; reflexivity | right; left; reflexivity].
Qed.

Lemma register_outcomes (header : u2fMessageHeader) (request : bytes)
    (s : State W) :
  let r := handleU2FRegister header request s in
  let log := snd (snd r) in
  (exists msg,
      fst r = Panic msg
      /\ (log = snd s \/ log = snd s ++ [CallNewPrivateKey]))
  \/ (fst r = Ok (ToBE16 u2f_SW_CONDITIONS_NOT_SATISFIED)
      /\ log = snd s ++ [CallNewPrivateKey; CallSealingEncryptionKey;
                         CallSeal; CallApproveU2FRegistration])
  \/ (exists body,
        fst r = Ok ([0x05] ++ body ++ [0x90; 0x00])
        /\ log = snd s ++ [CallNewPrivateKey; CallSealingEncryptionKey;
                           CallSeal; CallApproveU2FRegistration;
                           CallCreateAttestationCertificiate; CallSign]).
Proof.
  cbv zeta. unfold handleU2FRegister.
  destruct (slice_to request 32) as [challenge | m]; run_m;
    [| left; eexists; split; [reflexivity | left; reflexivity]].
  destruct (slice_from request 32) as [application | m]; run_m;
    [| left; eexists; split; [reflexivity | left; reflexivity]].
  destruct (len challenge =? 32); run_m;
    [| left; eexists; split; [reflexivity | left; reflexivity]].
  destruct (len application =? 32); run_m;
    [| left; eexists; split; [reflexivity | left; reflexivity]].
  destruct (elliptic_Marshal _ _) as [encodedPublicKey | m]; run_m;
    [| left; eexists; split; [reflexivity | right; reflexivity]].
  destruct (x509_MarshalECPrivateKey _) as [encodedPrivateKey |]; run_m;
    [| left; eexists; split; [reflexivity | right; reflexivity]].
  unfold sealKeyHandle. run_m.
  destruct (fst (ApproveU2FRegistration _ _)); cbn [negb]; run_m.
  - right; right. unfold Flatten. cbn [List.concat app fst].
    rewrite app_nil_r. unfold ret. cbn [fst snd].
    match goal with
    | |- exists body, Ok (5 :: ?p ++ ?L :: ?k ++ ?c ++ ?sg ++ ?sw) = _ /\ _ =>
        exists (p ++ L :: k ++ c ++ sg)
    end.
    split; [| log_eq].
    cbn [app]. rewrite <- !app_assoc. cbn [app].
    rewrite <- !app_assoc. reflexivity.
  - right; left. split; [reflexivity | log_eq].
Qed.

(** X4: a REGISTER request of 64 bytes that the user denies is answered by
    exactly 0x6985, when the client port's key is a P-256 key (its public
    point is on the curve and it encodes).  By then the key has been
    generated and the key handle sealed (the approval is asked with the
    unsealed handle); no attestation certificate is made and nothing is
    signed. *)
Theorem register_denied
    (message : bytes) (header : u2fMessageHeader) (request : bytes)
    (responseLength : Z) (encodedPrivateKey handle_bytes : bytes)
    (s s2 : State W) :
  decodeU2FMessage message = Ok (header, request, responseLength) ->
  Command header = u2f_COMMAND_REGISTER ->
  len request = 64 ->
  let application : bytes := skipn 32 request in
  let privateKey := fst (NewPrivateKey (fst s)) in
  let s1 := (snd (NewPrivateKey (fst s)), snd s ++ [CallNewPrivateKey]) in
  let unencryptedKeyHandle :=
    {| PrivateKey := Some encodedPrivateKey;
       ApplicationID := Some application |} in
  IsOnCurve (X privateKey) (Y privateKey) = true ->
  x509_MarshalECPrivateKey privateKey = Some encodedPrivateKey ->
  sealKeyHandle unencryptedKeyHandle s1 = (Ok handle_bytes, s2) ->
  fst (ApproveU2FRegistration unencryptedKeyHandle (fst s2)) = false ->
  handleU2FMessage message s
  = (Ok [0x69; 0x85],
     (snd (ApproveU2FRegistration unencryptedKeyHandle (fst s2)),
      snd s ++ [CallNewPrivateKey; CallSealingEncryptionKey; CallSeal;
                CallApproveU2FRegistration])).
Proof.
  intros Hdec Hcmd Hlen. cbv zeta. intros Hcurve Henc Hseal Happr.
  destruct (IsOnCurve_fits _ _ Hcurve) as [HX HY].
  rewrite (dispatch_register _ _ _ _ s Hdec Hcmd).
  unfold handleU2FRegister, slice_to, slice_from.
  assert (E32 : (32 <=? len request) = true) by (apply Z.leb_le; lia).
  rewrite E32. run_m.
  rewrite (len_firstn request 32), (len_skipn request 32), Hlen by lia.
  rewrite Z.eqb_refl. run_m.
  change (64 - 32 =? 32) with true. run_m.
  change (Z.to_nat 32) with 32%nat.
  unfold elliptic_Marshal.
  rewrite (panicIfNotOnCurve_passes _ _ Hcurve).
  rewrite (FillBytes_fits _ HX), (FillBytes_fits _ HY).
  cbn [exec_bind]. run_m.
  rewrite Henc. run_m.
  rewrite (bind_eq_Ok _ _ _ _ _ Hseal). run_m.
  rewrite Happr. cbn [negb]. unfold ret.
  f_equal. f_equal.
  unfold sealKeyHandle in Hseal. revert Hseal. run_m. unfold ret.
  intros [= _ <-]. cbn [snd]. rewrite <- !app_assoc. reflexivity.
Qed.

(** X5: on every path of handleU2FRegister, whatever the request and the
    client port: a response that begins with 0x05 and ends with 0x9000 is
    returned exactly when a signature was made, and then the calls were, in
    this order, the new key, the sealing key, the sealing, the approval, the
    attestation certificate and the signature; on any other path neither a
    certificate nor a signature is made. *)
Theorem register_signs_only_when_approved
    (header : u2fMessageHeader) (request : bytes) (s : State W) :
  let r := handleU2FRegister header request s in
  exists calls,
    snd (snd r) = snd s ++ calls
    /\ ((exists body, fst r = Ok ([0x05] ++ body ++ [0x90; 0x00]))
        <-> In CallSign calls)
    /\ (In CallSign calls ->
        calls = [CallNewPrivateKey; CallSealingEncryptionKey; CallSeal;
                 CallApproveU2FRegistration;
                 CallCreateAttestationCertificiate; CallSign])
    /\ (In CallCreateAttestationCertificiate calls -> In CallSign calls).
Proof.
  cbv zeta.
  destruct (register_outcomes header request s)
    as [(msg & Hr & Hlog) | [(Hr & Hlog) | (body & Hr & Hlog)]];
    cbv zeta in Hr, Hlog.
  - assert (Hcalls : exists calls,
               snd (snd (handleU2FRegister header request s)) = snd s ++ calls
               /\ (calls = [] \/ calls = [CallNewPrivateKey])).
    { destruct Hlog as [Hlog | Hlog]; rewrite Hlog.
      - exists []. rewrite app_nil_r. auto.
      - eexists. eauto. }
    destruct Hcalls as (calls & Hc & Hshape). exists calls.
    split; [exact Hc |]. rewrite Hr.
    destruct Hshape as [-> | ->]; repeat split;
      try (intros (b & Hb); discriminate);
      cbn [In]; intuition discriminate.
  - eexists. split; [exact Hlog |]. rewrite Hr.
    repeat split;
      try (intros (b & Hb); discriminate);
      cbn [In]; intuition discriminate.
  - eexists. split; [exact Hlog |]. rewrite Hr.
    repeat split; try (cbn [In]; tauto).
    exists body. reflexivity.
Qed.

(** ** AUTHENTICATE over a handle that opens *)

(** X6: over a key handle that opens to the application of the request and
    to a private key that parses, the control byte decides.  0x07
    (check-only) is answered 0x6985 with no call beyond the opening; 0x03
    with the approval denied is answered 0x6985 after that one approval
    call, with no counter taken and nothing signed; any control byte other
    than 0x03, 0x07 and 0x08 is answered 0x6700 with no call beyond the
    opening. *)
Theorem authenticate_control
    (message : bytes) (header : u2fMessageHeader) (request : bytes)
    (responseLength : Z)
    (challenge application handle rest : bytes)
    (keyHandle : KeyHandle) (encodedPrivateKey : bytes)
    (privateKey : ecdsa_PrivateKey) (s s1 : State W) :
  decodeU2FMessage message = Ok (header, request, responseLength) ->
  Command header = u2f_COMMAND_AUTHENTICATE ->
  request = challenge ++ application ++ len handle :: handle ++ rest ->
  len challenge = 32 -> len application = 32 ->
  openKeyHandle handle s = (Ok (Some keyHandle), s1) ->
  slice_bytes (ApplicationID keyHandle) = application ->
  PrivateKey keyHandle = Some encodedPrivateKey ->
  x509_ParseECPrivateKey encodedPrivateKey = Some privateKey ->
  (Param1 header = 0x07 ->
     handleU2FMessage message s = (Ok [0x69; 0x85], s1))
  /\ (Param1 header = 0x03 ->
      fst (ApproveU2FAuthentication keyHandle (fst s1)) = false ->
      handleU2FMessage message s
      = (Ok [0x69; 0x85],
         (snd (ApproveU2FAuthentication keyHandle (fst s1)),
          snd s1 ++ [CallApproveU2FAuthentication])))
  /\ (Param1 header <> 0x03 -> Param1 header <> 0x07 ->
      Param1 header <> 0x08 ->
      handleU2FMessage message s = (Ok [0x67; 0x00], s1)).
Proof.
  intros Hdec Hcmd -> Hc Ha Hopen Happ Hpriv Hparse.
  rewrite (dispatch_authenticate _ _ _ _ s Hdec Hcmd).
  destruct (authenticate_reads challenge application handle rest Hc Ha)
    as (R1 & R2 & R3 & R4).
  unfold handleU2FAuthenticate.
  rewrite R1. run_m. rewrite R2. run_m. rewrite R3. run_m.
  rewrite R4. run_m.
  rewrite (bind_eq_Ok _ _ _ _ _ Hopen).
  rewrite Hpriv, Happ.
  replace (bytes_differ application application) with false
    by (symmetry; apply bytes_differ_false; reflexivity).
  cbn [is_nil orb slice_bytes]. rewrite Hparse. run_m.
  split; [| split].
  - intros ->. reflexivity.
  - intros -> Hdeny.
    cbn [Z.eqb Pos.eqb u2f_AUTH_CONTROL_CHECK_ONLY
         u2f_AUTH_CONTROL_ENFORCE_USER_PRESENCE_AND_SIGN orb].
    run_m. rewrite Hdeny. reflexivity.
  - intros H3 H7 H8.
    apply Z.eqb_neq in H3, H7, H8.
    unfold u2f_AUTH_CONTROL_CHECK_ONLY,
      u2f_AUTH_CONTROL_ENFORCE_USER_PRESENCE_AND_SIGN, u2f_AUTH_CONTROL_SIGN.
    rewrite H3, H7, H8. reflexivity.
Qed.

(** X7: a key handle that opens to the application of the request but whose
    private key does not parse is not answered: handleU2FMessage panics
    with "Could not decode private key", whatever the control byte, also for
    a check-only request, with no call beyond the opening. *)
Theorem authenticate_unparsable_key_aborts
    (message : bytes) (header : u2fMessageHeader) (request : bytes)
    (responseLength : Z)
    (challenge application handle rest : bytes)
    (keyHandle : KeyHandle) (encodedPrivateKey : bytes) (s s1 : State W) :
  decodeU2FMessage message = Ok (header, request, responseLength) ->
  Command header = u2f_COMMAND_AUTHENTICATE ->
  request = challenge ++ application ++ len handle :: handle ++ rest ->
  len challenge = 32 -> len application = 32 ->
  openKeyHandle handle s = (Ok (Some keyHandle), s1) ->
  slice_bytes (ApplicationID keyHandle) = application ->
  PrivateKey keyHandle = Some encodedPrivateKey ->
  x509_ParseECPrivateKey encodedPrivateKey = None ->
  handleU2FMessage message s = (Panic "Could not decode private key", s1).
Proof.
  intros Hdec Hcmd -> Hc Ha Hopen Happ Hpriv Hparse.
  rewrite (dispatch_authenticate _ _ _ _ s Hdec Hcmd).
  destruct (authenticate_reads challenge application handle rest Hc Ha)
    as (R1 & R2 & R3 & R4).
  unfold handleU2FAuthenticate.
  rewrite R1. run_m. rewrite R2. run_m. rewrite R3. run_m.
  rewrite R4. run_m.
  rewrite (bind_eq_Ok _ _ _ _ _ Hopen).
  rewrite Hpriv, Happ.
  replace (bytes_differ application application) with false
    by (symmetry; apply bytes_differ_false; reflexivity).
  cbn [is_nil orb slice_bytes]. rewrite Hparse. run_m. reflexivity.
Qed.

(** X8: on every path of handleU2FAuthenticate, whatever the request and the
    client port: the counter is taken exactly when a signature is made, and
    that is exactly when the response is 0x01, four counter bytes, a
    signature and 0x9000.  The counter is then taken once, right before the
    one signature, and nowhere earlier. *)
Theorem authenticate_counter_iff_signature
    (header : u2fMessageHeader) (request : bytes) (s : State W) :
  let r := handleU2FAuthenticate header request s in
  exists calls,
    snd (snd r) = snd s ++ calls
    /\ ((exists counter signature,
            fst r = Ok ([0x01] ++ ToBE32 counter ++ signature ++ [0x90; 0x00]))
        <-> In CallSign calls)
    /\ (In CallNewAuthenticationCounterId calls <-> In CallSign calls)
    /\ (In CallSign calls ->
        exists before,
          calls = before ++ [CallNewAuthenticationCounterId; CallSign]
          /\ ~ In CallNewAuthenticationCounterId before
          /\ ~ In CallSign before).
Proof.
  cbv zeta.
  destruct (authenticate_outcomes header request s)
    as [(msg & Hr & Hlog) | [(sw & Hr & Hsw & Hlog) | (c & sg & Hr & Hlog)]];
    cbv zeta in Hr, Hlog.
  - assert (Hcalls : exists calls,
               snd (snd (handleU2FAuthenticate header request s))
               = snd s ++ calls
               /\ (calls = [] \/ calls = [CallSealingEncryptionKey])).
    { destruct Hlog as [Hlog | Hlog]; rewrite Hlog.
      - exists []. rewrite app_nil_r. auto.
      - eexists. eauto. }
    destruct Hcalls as (calls & Hc & Hshape). exists calls.
    split; [exact Hc |]. rewrite Hr.
    destruct Hshape as [-> | ->]; repeat split;
      try (intros (c & sg & Hb); discriminate);
      cbn [In]; intuition discriminate.
  - assert (Hcalls : exists calls,
               snd (snd (handleU2FAuthenticate header request s))
               = snd s ++ calls
               /\ (calls = [] \/ calls = [CallSealingEncryptionKey]
                   \/ calls = [CallSealingEncryptionKey;
                               CallApproveU2FAuthentication])).
    { destruct Hlog as [Hlog | [Hlog | Hlog]]; rewrite Hlog.
      - exists []. rewrite app_nil_r. auto.
      - eexists. eauto.
      - eexists. eauto. }
    destruct Hcalls as (calls & Hc & Hshape). exists calls.
    split; [exact Hc |]. rewrite Hr.
    assert (Hno : ~ exists counter signature,
                     Ok (ToBE16 sw)
                     = Ok ([1] ++ ToBE32 counter ++ signature ++ [144; 0])).
    { intros (c & sg & Hb).
      destruct Hsw as [-> | [-> | ->]]; discriminate. }
    destruct Hshape as [-> | [-> | ->]]; repeat split;
      try (intros Hb; exfalso; exact (Hno Hb));
      cbn [In]; intuition discriminate.
  - assert (Hcalls : exists before,
               snd (snd (handleU2FAuthenticate header request s))
               = snd s ++ before ++ [CallNewAuthenticationCounterId; CallSign]
               /\ (before = [CallSealingEncryptionKey]
                   \/ before = [CallSealingEncryptionKey;
                                CallApproveU2FAuthentication])).
    { destruct Hlog as [Hlog | Hlog]; rewrite Hlog.
      - exists [CallSealingEncryptionKey]. split; [reflexivity | auto].
      - exists [CallSealingEncryptionKey; CallApproveU2FAuthentication].
        split; [reflexivity | auto]. }
    destruct Hcalls as (before & Hc & Hshape).
    exists (before ++ [CallNewAuthenticationCounterId; CallSign]).
    split; [exact Hc |]. rewrite Hr.
    assert (Hin : In CallSign
                    (before ++ [CallNewAuthenticationCounterId; CallSign]))
      by (apply in_or_app; right; cbn [In]; auto).
    assert (Hin' : In CallNewAuthenticationCounterId
                     (before ++ [CallNewAuthenticationCounterId; CallSign]))
      by (apply in_or_app; right; cbn [In]; auto).
    repeat split; auto.
    + exists c, sg. reflexivity.
    + exists before. split; [reflexivity |].
      destruct Hshape as [-> | ->]; cbn [In]; intuition discriminate.
Qed.

(** X9: every response of handleU2FMessage ends with a status word, two
    bytes big-endian: 0x9000 after a body, or one of 0x6985, 0x6A80 and
    0x6700 alone.  (A panic gives no response.) *)
Theorem response_ends_in_status_word
    (message : bytes) (s : State W) (response : bytes) :
  fst (handleU2FMessage message s) = Ok response ->
  exists body sw,
    response = body ++ ToBE16 sw
    /\ (sw = u2f_SW_NO_ERROR
        \/ (body = []
            /\ (sw = u2f_SW_CONDITIONS_NOT_SATISFIED
                \/ sw = u2f_SW_WRONG_DATA \/ sw = u2f_SW_WRONG_LENGTH))).
Proof.
  unfold handleU2FMessage, bind, lift.
  destruct (decodeU2FMessage message) as [[[header request] le] | m];
    cbn [fst snd]; [| discriminate].
  destruct (Command header =? u2f_COMMAND_VERSION).
  { intros [= <-]. exists U2F_V2, u2f_SW_NO_ERROR. auto. }
  destruct (Command header =? u2f_COMMAND_REGISTER).
  { intros Hr.
    destruct (register_outcomes header request s)
      as [(msg & Hp & _) | [(Hd & _) | (body & Hok & _)]];
      cbv zeta in *.
    - congruence.
    - rewrite Hd in Hr. injection Hr as <-.
      exists [], u2f_SW_CONDITIONS_NOT_SATISFIED. auto.
    - rewrite Hok in Hr. injection Hr as <-.
      exists ([5] ++ body), u2f_SW_NO_ERROR.
      split; [rewrite <- app_assoc; reflexivity | auto]. }
  destruct (Command header =? u2f_COMMAND_AUTHENTICATE); [| discriminate].
  intros Hr.
  destruct (authenticate_outcomes header request s)
    as [(msg & Hp & _) | [(sw & Hok & Hsw & _) | (c & sg & Hok & _)]];
    cbv zeta in *.
  - congruence.
  - rewrite Hok in Hr. injection Hr as <-.
    exists [], sw. split; [reflexivity |]. right. tauto.
  - rewrite Hok in Hr. injection Hr as <-.
    exists ([1] ++ ToBE32 c ++ sg), u2f_SW_NO_ERROR.
    split; [rewrite <- !app_assoc; reflexivity | auto].
Qed.

(** ** Registration, then authentication *)

(** X10: the key handle that REGISTER seals for a private key and an
    application is accepted by AUTHENTICATE under the same sealing key for
    that application only.  With control byte 0x08 the response is signed
    with that very private key over
    application ‖ 0x01 ‖ counter_be32 ‖ challenge; with control byte 0x07 it
    is 0x6985; for any other application it is 0x6A80.  What is asked of the
    code outside [u2f.go]: [open] undoes [seal], CBOR decoding undoes CBOR
    encoding, and the encoded private key parses back to the key. *)
Theorem registered_handle_authenticates
    (privateKey : ecdsa_PrivateKey) (encodedPrivateKey registered : bytes)
    (handle : bytes) (s1 s2 : State W)
    (message : bytes) (header : u2fMessageHeader) (request : bytes)
    (responseLength : Z) (challenge application rest : bytes) (s : State W) :
  (forall key data w, open key (fst (seal key data w)) = Ok data) ->
  (forall b, Unmarshal_encryptedBox (MarshalCBOR_encryptedBox b) = Some b) ->
  (forall k, Unmarshal_KeyHandle (MarshalCBOR_KeyHandle k) = Some k) ->
  x509_ParseECPrivateKey encodedPrivateKey = Some privateKey ->
  sealKeyHandle {| PrivateKey := Some encodedPrivateKey;
                   ApplicationID := Some registered |} s1 = (Ok handle, s2) ->
  fst (SealingEncryptionKey (fst s)) = fst (SealingEncryptionKey (fst s1)) ->
  decodeU2FMessage message = Ok (header, request, responseLength) ->
  Command header = u2f_COMMAND_AUTHENTICATE ->
  request = challenge ++ application ++ len handle :: handle ++ rest ->
  len challenge = 32 -> len application = 32 ->
  let w := snd (SealingEncryptionKey (fst s)) in
  let counter := fst (NewAuthenticationCounterId w) in
  let signature :=
    fst (sign privateKey (application ++ [0x01] ++ ToBE32 counter ++ challenge)
              (snd (NewAuthenticationCounterId w))) in
  (application <> registered ->
     fst (handleU2FMessage message s) = Ok [0x6A; 0x80])
  /\ (application = registered -> Param1 header = 0x07 ->
      fst (handleU2FMessage message s) = Ok [0x69; 0x85])
  /\ (application = registered -> Param1 header = 0x08 ->
      fst (handleU2FMessage message s)
      = Ok ([0x01] ++ ToBE32 counter ++ signature ++ [0x90; 0x00])).
Proof.
  intros Haead Hbox Hkh Hparse Hseal Hkey Hdec Hcmd -> Hc Ha. cbv zeta.
  rewrite (dispatch_authenticate _ _ _ _ s Hdec Hcmd).
  destruct (authenticate_reads challenge application handle rest Hc Ha)
    as (R1 & R2 & R3 & R4).
  unfold handleU2FAuthenticate.
  rewrite R1. run_m. rewrite R2. run_m. rewrite R3. run_m.
  rewrite R4. run_m.
  unfold sealKeyHandle in Hseal. revert Hseal. run_m. unfold ret.
  intros [= <- _].
  unfold openKeyHandle. rewrite Hbox. run_m.
  rewrite Hkey, Haead. run_m. rewrite Hkh. run_m.
  cbn [PrivateKey ApplicationID is_nil slice_bytes orb].
  split; [| split].
  - intros Hne.
    rewrite (bytes_differ_true registered application) by congruence.
    reflexivity.
  - intros -> H7.
    replace (bytes_differ registered registered) with false
      by (symmetry; apply bytes_differ_false; reflexivity).
    rewrite Hparse. run_m. rewrite H7. reflexivity.
  - intros -> H8.
    replace (bytes_differ registered registered) with false
      by (symmetry; apply bytes_differ_false; reflexivity).
    rewrite Hparse. run_m. rewrite H8.
    cbn [Z.eqb Pos.eqb u2f_AUTH_CONTROL_CHECK_ONLY
         u2f_AUTH_CONTROL_ENFORCE_USER_PRESENCE_AND_SIGN
         u2f_AUTH_CONTROL_SIGN orb].
    run_m. cbn [negb]. run_m.
    unfold Flatten. cbn [List.concat app fst]. rewrite app_nil_r.
    reflexivity.
Qed.

(** ** The fields of an APDU that are not read *)

(** X14: of an APDU handleU2FMessage reads the INS, the request and, for
    AUTHENTICATE, P1; nothing else.  Two APDUs that decode to the same INS,
    the same P1 and the same request get the same result in the same outside
    state, whatever their CLA, their P2 and their expected response length:
    a response is never cut to the length the host announced. *)
Theorem unread_fields_are_ignored
    (m1 m2 : bytes) (h1 h2 : u2fMessageHeader) (request : bytes)
    (le1 le2 : Z) (s : State W) :
  decodeU2FMessage m1 = Ok (h1, request, le1) ->
  decodeU2FMessage m2 = Ok (h2, request, le2) ->
  Command h1 = Command h2 ->
  Param1 h1 = Param1 h2 ->
  handleU2FMessage m1 s = handleU2FMessage m2 s.
Proof.
  intros H1 H2 Hcmd Hp1.
  unfold handleU2FMessage, bind, lift. rewrite H1, H2. cbn [fst snd].
  destruct h1 as [c1 i1 p1 q1], h2 as [c2 i2 p2 q2].
  cbn [Command Param1] in *. subst i2 p2. reflexivity.
Qed.

End ServerExtras.

(** * Further properties of the USB device *)

Section DescriptorExtras.

Import USB Host.

(** X11: getDescriptor serves the device descriptor, the configuration and
    the strings 0 to 5, and panics on every other type and every other
    string index.  What it returns is never nil and always a chain of
    descriptors a host can walk: every bLength covers its two header bytes
    and stays inside the response, the chain ends exactly at its end, and
    the first descriptor has the type asked for.  The device descriptor and
    a string are one descriptor as long as the response; the configuration
    is five, of types 2, 4, 0x21, 5 and 5. *)
Theorem getDescriptor_chain (descriptorType index : Z) :
  match getDescriptor descriptorType index with
  | Panic _ => ~ served descriptorType index
  | Ok None => False
  | Ok (Some d) =>
      served descriptorType index
      /\ exists chain,
           descriptor_chain (List.length d) d = Some chain
           /\ fold_right Z.add 0 (map fst chain) = len d
           /\ (descriptorType <> usbDescriptorConfiguration ->
               chain = [(len d, descriptorType)])
           /\ (descriptorType = usbDescriptorConfiguration ->
               chain = [(9, 0x02); (9, 0x04); (9, 0x21); (7, 0x05); (7, 0x05)])
  end.
Proof.
  unfold getDescriptor, served.
  destruct (Z.eqb_spec descriptorType usbDescriptorDevice) as [-> | N1].
  { split; [auto |]. eexists. repeat split; try reflexivity. discriminate. }
  destruct (Z.eqb_spec descriptorType usbDescriptorConfiguration) as [-> | N2].
  { split; [auto |]. eexists. repeat split; try reflexivity.
    intros H; contradiction. }
  destruct (Z.eqb_spec descriptorType usbDescriptorString) as [-> | N3].
  - unfold getStringDescriptor.
    destruct (Z.eqb_spec index 0) as [-> | I0];
      [split; [right; right; split; [reflexivity | lia] |];
       eexists; repeat split; try reflexivity; discriminate |].
    destruct (Z.eqb_spec index 1) as [-> | I1];
      [split; [right; right; split; [reflexivity | lia] |];
       eexists; repeat split; try reflexivity; discriminate |].
    destruct (Z.eqb_spec index 2) as [-> | I2];
      [split; [right; right; split; [reflexivity | lia] |];
       eexists; repeat split; try reflexivity; discriminate |].
    destruct (Z.eqb_spec index 3) as [-> | I3];
      [split; [right; right; split; [reflexivity | lia] |];
       eexists; repeat split; try reflexivity; discriminate |].
    destruct (Z.eqb_spec index 4) as [-> | I4];
      [split; [right; right; split; [reflexivity | lia] |];
       eexists; repeat split; try reflexivity; discriminate |].
    destruct (Z.eqb_spec index 5) as [-> | I5];
      [split; [right; right; split; [reflexivity | lia] |];
       eexists; repeat split; try reflexivity; discriminate |].
    cbn [exec_bind]. intros [H | [H | [_ H]]]; [discriminate .. | lia].
  - intros [H | [H | [H _]]]; contradiction.
Qed.

End DescriptorExtras.

(** * Further properties of the OUT lock *)

Section OutputExtras.

Import Output Handler.

Lemma length_copy (dst src : bytes) :
  List.length (copy dst src) = List.length dst.
Proof.
  unfold copy. rewrite length_app, length_firstn, length_skipn. lia.
Qed.

Lemma step_consistent (d d' : device) (c : choice) (k : nat) (g : goroutine)
    (i : Z) (buffer : bytes) (rs : list (option bytes)) (cps : list bytes) :
  step d c = Some d' ->
  nth_error (goroutines d) k = Some g ->
  id g = i -> consistent buffer rs cps g ->
  exists g',
    nth_error (goroutines d') k = Some g' /\ id g' = i
    /\ consistent buffer (rs ++ received_at d c k) (cps ++ copied_at d c k) g'.
Proof.
  intros Hstep Hk Hid Hw. destruct c as [j b | k' answer]; cbn in Hstep.
  - injection Hstep as <-. cbn [goroutines received_at copied_at]. exists g.
    rewrite !app_nil_r.
    split; [| auto]. rewrite nth_error_app1; [exact Hk |].
    apply nth_error_Some. congruence.
  - destruct (nth_error (goroutines d) k') as [h |] eqn:Hk'; [| discriminate].
    destruct (step_goroutine (outputLock d) answer h)
      as [[[locked h'] ev] |] eqn:Hh; [| discriminate].
    injection Hstep as <-. cbn [goroutines]. unfold received_at, copied_at.
    destruct (Nat.eq_dec k k') as [<- | Hne].
    + assert (h = g) by congruence. subst h.
      rewrite Nat.eqb_refl, Hk.
      exists h'. split; [eapply nth_error_set_nth_eq; eassumption |].
      unfold step_goroutine in Hh. unfold consistent in *.
      destruct Hw as [Hbuf Hpc].
      destruct g as [gi gb p]. cbn [at_pc transferBuffer id] in *.
      destruct p as [| | r | r | [r |] |];
        try discriminate;
        try (destruct (outputLock d); [discriminate |]);
        injection Hh as <- <- <-; cbn [goto at_pc transferBuffer id];
        (split; [assumption |]).
      * destruct Hpc as [-> ->]. rewrite !app_nil_r. auto.
      * destruct Hpc as [-> ->]. rewrite app_nil_r.
        split; [exact Hbuf |]. destruct answer; auto.
      * destruct Hpc as [-> ->]. rewrite app_nil_r. cbn in *.
        split; [rewrite Hbuf; reflexivity | auto].
      * destruct Hpc as [-> ->]. rewrite !app_nil_r. auto.
      * destruct Hpc as [-> ->]. rewrite !app_nil_r.
        split; [exact Hbuf |]. exists (Some r). auto.
      * destruct Hpc as [-> ->]. rewrite !app_nil_r.
        split; [exact Hbuf |]. exists None. auto.
    + assert (E : Nat.eqb k' k = false)
        by (apply Nat.eqb_neq; intros ->; apply Hne; reflexivity).
      rewrite E, !app_nil_r.
      exists g. split; [| auto].
      rewrite nth_error_set_nth_ne by exact Hne. exact Hk.
Qed.

Lemma run_consistent (cs : list choice) :
  forall (d d' : device) (k : nat) (g : goroutine) (i : Z) (buffer : bytes)
         (rs : list (option bytes)) (cps : list bytes),
    run d cs = Some d' ->
    nth_error (goroutines d) k = Some g ->
    id g = i -> consistent buffer rs cps g ->
    exists g',
      nth_error (goroutines d') k = Some g' /\ id g' = i
      /\ consistent buffer (rs ++ responses d cs k) (cps ++ copies d cs k) g'.
Proof.
  induction cs as [| c cs IH]; intros d d' k g i buffer rs cps Hrun Hk Hi Hw;
    cbn [run responses copies] in *.
  - injection Hrun as <-. rewrite !app_nil_r. eauto.
  - destruct (step d c) as [d1 |] eqn:Hstep; [| discriminate].
    destruct (step_consistent d d1 c k g i buffer rs cps Hstep Hk Hi Hw)
      as (g1 & Hk1 & Hi1 & Hw1).
    destruct (IH d1 d' k g1 i buffer _ _ Hrun Hk1 Hi1 Hw1)
      as (g' & Hk' & Hi' & Hw').
    exists g'. rewrite !app_assoc. auto.
Qed.

(** X12: the transfer buffer of an OUT URB is written at most once, by the
    handler of that URB and with the response [GetResponse] returned to that
    handler.  Whatever the other handlers do and in whatever order, from the
    submission of the URB on: at most one statement copies into its buffer,
    and it is a statement of its own handler; what that statement copies is
    the response that handler got from [GetResponse], which answered it once
    and not nil; the buffer is then the submitted one with that response
    copied over its beginning (a longer response is cut to the buffer, a
    shorter one leaves the end of the buffer as it was), and is the
    submitted one as long as no copy was made; a handler that has finished
    has been answered once and has copied exactly when the answer was not
    nil; the id and the length of the buffer never change. *)
Theorem transfer_buffer_written_once
    (cs : list choice) (d d' : device) (k : nat) (g : goroutine) :
  run d cs = Some d' ->
  nth_error (goroutines d) k = Some g ->
  at_pc g = AtLock ->
  exists g',
    nth_error (goroutines d') k = Some g'
    /\ id g' = id g
    /\ (List.length (copies d cs k) <= 1)%nat
    /\ (List.length (responses d cs k) <= 1)%nat
    /\ (forall response,
          In response (copies d cs k) ->
          responses d cs k = [Some response])
    /\ transferBuffer g' = fold_left copy (copies d cs k) (transferBuffer g)
    /\ (copies d cs k = [] -> transferBuffer g' = transferBuffer g)
    /\ (forall response,
          copies d cs k = [response] ->
          transferBuffer g'
          = firstn (List.length (transferBuffer g)) response
            ++ skipn (List.length response) (transferBuffer g))
    /\ (at_pc g' = Done ->
        exists answer,
          responses d cs k = [answer]
          /\ copies d cs k = match answer with
                             | Some response => [response]
                             | None => []
                             end)
    /\ List.length (transferBuffer g') = List.length (transferBuffer g).
Proof.
  intros Hrun Hk Hpc.
  assert (Hw : consistent (transferBuffer g) [] [] g)
    by (unfold consistent; rewrite Hpc; auto).
  destruct (run_consistent cs d d' k g (id g) (transferBuffer g) [] []
              Hrun Hk eq_refl Hw) as (g' & Hk' & Hid & Hbuf & Hat).
  cbn [app] in Hbuf, Hat.
  exists g'. split; [exact Hk' |]. split; [exact Hid |].
  assert (Hshape :
    (copies d cs k = []
     /\ (List.length (responses d cs k) <= 1)%nat)
    \/ exists r, copies d cs k = [r] /\ responses d cs k = [Some r]).
  { destruct (at_pc g') as [| | r | r | [r |] |].
    - destruct Hat as [-> ->]. left. cbn. auto.
    - destruct Hat as [-> ->]. left. cbn. auto.
    - destruct Hat as [-> ->]. left. cbn. auto.
    - destruct Hat as [-> ->]. right. eauto.
    - destruct Hat as [-> ->]. right. eauto.
    - destruct Hat as [-> ->]. left. cbn. auto.
    - destruct Hat as ([r |] & -> & ->); [right; eauto | left; cbn; auto]. }
  split; [destruct Hshape as [[-> _] | (r & -> & _)]; cbn; lia |].
  split; [destruct Hshape as [[_ H] | (r & _ & ->)]; [exact H | cbn; lia] |].
  split.
  { intros response Hin.
    destruct Hshape as [[E _] | (r & E & Hr)]; rewrite E in Hin.
    - destruct Hin.
    - destruct Hin as [<- | []]. exact Hr. }
  split; [exact Hbuf |].
  split; [intros E; rewrite Hbuf, E; reflexivity |].
  split; [intros response E; rewrite Hbuf, E; reflexivity |].
  split.
  { intros Hdone. rewrite Hdone in Hat. exact Hat. }
  rewrite Hbuf.
  destruct Hshape as [[-> _] | (r & -> & _)];
    [reflexivity | apply length_copy].
Qed.

Lemma holder_releases (n : nat) :
  forall (d : device) (k : nat) (g : goroutine) (answer : option bytes),
    nth_error (goroutines d) k = Some g ->
    inside (at_pc g) = true ->
    (remaining (at_pc g) <= n)%nat ->
    exists m d',
      (1 <= m <= n)%nat
      /\ run d (repeat (Run k answer) m) = Some d'
      /\ outputLock d' = false
      /\ exists g', nth_error (goroutines d') k = Some g' /\ at_pc g' = Done.
Proof.
  induction n as [| n IH]; intros d k g answer Hk Hin Hrem.
  - destruct (at_pc g); cbn in Hin, Hrem; try discriminate; lia.
  - destruct g as [i buf p]. cbn [at_pc] in Hin, Hrem.
    destruct p as [| | r | r | r |]; try discriminate.
    + (* GetResponse *)
      set (g1 := goto {| id := i; transferBuffer := buf; at_pc := AtGetResponse |}
                      buf
                      match answer with
                      | Some r => AtCopy r
                      | None => AtUnlock None
                      end).
      destruct (IH {| outputLock := outputLock d;
                      goroutines := set_nth k g1 (goroutines d);
                      trace := trace d ++ [EvGetResponse i answer] |}
                   k g1 answer) as (m & d' & Hm & Hrun & Hrest).
      * cbn [goroutines]. eapply nth_error_set_nth_eq; eassumption.
      * destruct answer; reflexivity.
      * destruct answer; cbn in *; lia.
      * exists (S m), d'. split; [lia |]. split; [| exact Hrest].
        cbn [repeat run step]. rewrite Hk. cbn. exact Hrun.
    + (* copy *)
      set (g1 := goto {| id := i; transferBuffer := buf; at_pc := AtCopy r |}
                      (copy buf r) (AtOnFinish r)).
      destruct (IH {| outputLock := outputLock d;
                      goroutines := set_nth k g1 (goroutines d);
                      trace := trace d ++ [EvCopy i] |}
                   k g1 answer) as (m & d' & Hm & Hrun & Hrest).
      * cbn [goroutines]. eapply nth_error_set_nth_eq; eassumption.
      * reflexivity.
      * cbn in *; lia.
      * exists (S m), d'. split; [lia |]. split; [| exact Hrest].
        cbn [repeat run step]. rewrite Hk. cbn. exact Hrun.
    + (* onFinish *)
      set (g1 := goto {| id := i; transferBuffer := buf; at_pc := AtOnFinish r |}
                      buf (AtUnlock (Some r))).
      destruct (IH {| outputLock := outputLock d;
                      goroutines := set_nth k g1 (goroutines d);
                      trace := trace d ++ [EvOnFinish i] |}
                   k g1 answer) as (m & d' & Hm & Hrun & Hrest).
      * cbn [goroutines]. eapply nth_error_set_nth_eq; eassumption.
      * reflexivity.
      * cbn in *; lia.
      * exists (S m), d'. split; [lia |]. split; [| exact Hrest].
        cbn [repeat run step]. rewrite Hk. cbn. exact Hrun.
    + (* Unlock *)
      exists 1%nat. eexists. split; [lia |]. split.
      * cbn [repeat run step]. rewrite Hk. cbn. reflexivity.
      * cbn [outputLock goroutines]. split; [reflexivity |].
        eexists. split; [eapply nth_error_set_nth_eq; eassumption |].
        reflexivity.
Qed.

(** X13: the output lock is never left held and the device is never stuck.
    In every reachable state where the lock is held, its holder alone,
    whatever [GetResponse] answers, reaches its [Unlock] in at most four
    statements and is done; and in every reachable state where some handler
    is not done, some handler can run its next statement. *)
Theorem output_lock_is_released (d : device) :
  reachable d ->
  (outputLock d = true ->
     exists k,
       forall answer,
         exists m d',
           (1 <= m <= 4)%nat
           /\ run d (repeat (Run k answer) m) = Some d'
           /\ outputLock d' = false
           /\ exists g', nth_error (goroutines d') k = Some g'
                         /\ at_pc g' = Done)
  /\ (forall k g,
        nth_error (goroutines d) k = Some g -> at_pc g <> Done ->
        exists k' answer d', step d (Run k' answer) = Some d').
Proof.
  intros [cs Hrun].
  pose proof (run_serial cs _ _ serial_NewUSBDevice Hrun) as [runs Inv].
  split.
  - intros Hlock. rewrite Hlock in Inv.
    destruct Inv as (k & g & Hk & Hin & _ & _).
    exists k. intros answer.
    apply (holder_releases 4 d k g answer Hk Hin).
    destruct (at_pc g); cbn in *; try discriminate; lia.
  - intros k g Hk Hnot.
    destruct (outputLock d) eqn:Hlock.
    + destruct Inv as (k0 & g0 & Hk0 & Hin & _ & _).
      exists k0, None.
      unfold step. rewrite Hk0. unfold step_goroutine. rewrite Hlock.
      destruct (at_pc g0); try discriminate; eauto.
    + destruct Inv as (Hall & _).
      pose proof (Hall k g Hk) as Hout.
      exists k, None.
      unfold step. rewrite Hk. unfold step_goroutine. rewrite Hlock.
      destruct (at_pc g); try discriminate; [eauto | contradiction].
Qed.

End OutputExtras.

(** * The further statements on concrete inputs *)

Section MoreScenarios.

Import U2F Fixture Host Cases.

Ltac supply H tac :=
  match type of H with
  | ?P -> _ =>
      let HP := fresh "HP" in
      assert (HP : P) by tac; specialize (H HP); clear HP
  end.

Lemma decode_encode_witness :
  decodeU2FMessage (encodeU2FMessage (authenticate_header 3) [1; 2; 3] (Some 256))
  = Ok (authenticate_header 3, [1; 2; 3], 256).
Proof.
  apply (decode_encode (authenticate_header 3) [1; 2; 3] (Some 256)).
  - vm_compute. reflexivity.
  - intros le [= <-]. lia.
Defined.

Lemma decode_rejects_short_framing_witness :
  handleU2FMessage short_framed_register (16, [])
  = (Panic "Invalid U2F Payload length", (16, [])).
Proof.
  apply (decode_rejects_short_framing register_header 64 s4_request (16, [])).
  discriminate.
Defined.

Lemma dispatch_without_client_witness :
  handleU2FMessage unknown_ins_apdu (16, [])
  = (Panic "Invalid U2F Command", (16, [])).
Proof.
  apply (dispatch_without_client unknown_ins_apdu
           {| Cla := 0; Command := 9; Param1 := 0; Param2 := 0 |} [] 0 (16, []));
    try reflexivity; discriminate.
Defined.

Lemma register_denied_witness :
  @handleU2FMessage Z denying_client crypto s4_apdu (16, [])
  = (Ok [0x69; 0x85],
     (18, [CallNewPrivateKey; CallSealingEncryptionKey; CallSeal;
           CallApproveU2FRegistration])).
Proof.
  pose proof (@register_denied Z denying_client crypto
                s4_apdu register_header s4_request 0
                (slice_bytes (marshal_key base_key)) s4_handle
                (16, [])
                (18, [CallNewPrivateKey; CallSealingEncryptionKey; CallSeal]))
    as H.
  cbv zeta in H.
  do 7 (supply H ltac:(vm_compute; reflexivity)).
  exact H.
Defined.

Lemma register_signs_only_when_approved_witness :
  exists calls,
    snd (snd (handleU2FRegister register_header s4_request (16, [])))
    = [] ++ calls
    /\ In CallSign calls.
Proof.
  destruct (register_signs_only_when_approved register_header s4_request
              (16, [])) as (calls & Hlog & Hiff & _).
  exists calls. split; [exact Hlog |].
  apply Hiff. exists s4_body. vm_compute. reflexivity.
Defined.

Lemma authenticate_control_witness :
  handleU2FMessage (auth_apdu 7 (auth_request s4_application s4_handle)) (16, [])
  = (Ok [0x69; 0x85], (16, [CallSealingEncryptionKey])).
Proof.
  pose proof (authenticate_control
                (auth_apdu 7 (auth_request s4_application s4_handle))
                (authenticate_header 7) (auth_request s4_application s4_handle) 0
                s4_challenge s4_application s4_handle [] s4_key_handle
                (slice_bytes (marshal_key base_key)) base_key
                (16, []) (16, [CallSealingEncryptionKey])) as H.
  do 9 (supply H ltac:(vm_compute; reflexivity)).
  destruct H as [H _]. apply H. reflexivity.
Defined.

Lemma authenticate_unparsable_key_aborts_witness :
  handleU2FMessage (auth_apdu 7 (auth_request s4_application odd_handle)) (16, [])
  = (Panic "Could not decode private key", (16, [CallSealingEncryptionKey])).
Proof.
  apply (authenticate_unparsable_key_aborts
           (auth_apdu 7 (auth_request s4_application odd_handle))
           (authenticate_header 7) (auth_request s4_application odd_handle) 0
           s4_challenge s4_application odd_handle [] odd_key_handle
           [1; 2; 3] (16, []) (16, [CallSealingEncryptionKey]));
    vm_compute; reflexivity.
Defined.

Lemma authenticate_counter_iff_signature_witness :
  exists calls,
    snd (snd (handleU2FAuthenticate (authenticate_header 8)
                (auth_request s4_application s4_handle) (16, [])))
    = [] ++ calls
    /\ In CallNewAuthenticationCounterId calls.
Proof.
  destruct (authenticate_counter_iff_signature (authenticate_header 8)
              (auth_request s4_application s4_handle) (16, []))
    as (calls & Hlog & Hsig & Hcnt & _).
  exists calls. split; [exact Hlog |].
  apply Hcnt, Hsig. exists 16, [48; 6; 2; 1; 50; 2; 1; 17].
  vm_compute. reflexivity.
Defined.

Lemma response_ends_in_status_word_witness :
  exists body sw,
    [0x6A; 0x80] = body ++ ToBE16 sw
    /\ (sw = u2f_SW_NO_ERROR
        \/ (body = []
            /\ (sw = u2f_SW_CONDITIONS_NOT_SATISFIED
                \/ sw = u2f_SW_WRONG_DATA \/ sw = u2f_SW_WRONG_LENGTH))).
Proof.
  apply (response_ends_in_status_word
           (auth_apdu 3 (auth_request s4_challenge s4_handle)) (16, [])).
  vm_compute. reflexivity.
Defined.

Lemma registered_handle_authenticates_witness :
  fst (handleU2FMessage (auth_apdu 8 (auth_request s4_application s4_handle))
                        (16, []))
  = Ok ([1] ++ [0; 0; 0; 16] ++ [48; 6; 2; 1; 50; 2; 1; 17] ++ [144; 0]).
Proof.
  pose proof (registered_handle_authenticates
                base_key (slice_bytes (marshal_key base_key)) s4_application
                s4_handle (17, [])
                (18, [CallSealingEncryptionKey; CallSeal])
                (auth_apdu 8 (auth_request s4_application s4_handle))
                (authenticate_header 8)
                (auth_request s4_application s4_handle) 0
                s4_challenge s4_application [] (16, [])
                fixture_open_seal fixture_box_roundtrip
                fixture_handle_roundtrip) as H.
  do 8 (supply H ltac:(vm_compute; reflexivity)).
  cbv zeta in H. destruct H as (_ & _ & H).
  rewrite (H eq_refl eq_refl). vm_compute. reflexivity.
Defined.

Lemma getDescriptor_chain_witness :
  exists d,
    USB.getDescriptor USB.usbDescriptorString 2 = Ok (Some d)
    /\ descriptor_chain (List.length d) d = Some [(26, 0x03)].
Proof.
  pose proof (getDescriptor_chain USB.usbDescriptorString 2) as H.
  destruct (USB.getDescriptor USB.usbDescriptorString 2) as [[d |] | m] eqn:E;
    [| contradiction | discriminate E].
  destruct H as (_ & chain & Hchain & _ & Hone & _).
  exists d. split; [reflexivity |].
  rewrite Hchain, Hone by discriminate.
  injection E as <-. reflexivity.
Defined.

Lemma transfer_buffer_written_once_witness :
  exists g',
    nth_error (Output.goroutines (device_after overtaking_schedule)) 0 = Some g'
    /\ Handler.responses two_submitted second_first 0 = [Some [9]]
    /\ Handler.copies two_submitted second_first 0 = [[9]]
    /\ Output.transferBuffer g' = [9; 0; 0].
Proof.
  destruct (transfer_buffer_written_once second_first two_submitted
              (device_after overtaking_schedule) 0
              {| Output.id := 1; Output.transferBuffer := [0; 0; 0];
                 Output.at_pc := Output.AtLock |})
    as (g' & Hk & _ & _ & _ & _ & Hbuf & _); try reflexivity.
  exists g'. split; [exact Hk |].
  split; [reflexivity |]. split; [reflexivity |].
  rewrite Hbuf. reflexivity.
Defined.

Lemma output_lock_is_released_witness :
  exists m d',
    (1 <= m <= 4)%nat
    /\ Output.run waiting (repeat (Output.Run 0 (Some [7; 7])) m) = Some d'
    /\ Output.outputLock d' = false.
Proof.
  assert (Hreach : Output.reachable waiting)
    by (exists [Output.Submit 1 [0; 0; 0]; Output.Run 0 None]; reflexivity).
  destruct (output_lock_is_released waiting Hreach) as [H _].
  destruct (H eq_refl) as (k & Hk).
  destruct (Hk (Some [7; 7])) as (m & d' & Hm & Hrun & Hlock & _).
  assert (k = 0%nat).
  { destruct k as [| k]; [reflexivity |].
    destruct m as [| m]; [lia |]. cbn in Hrun. destruct k; discriminate. }
  subst k. exists m, d'. auto.
Defined.

Lemma unread_fields_are_ignored_witness :
  handleU2FMessage
    (encodeU2FMessage (authenticate_header 7)
       (auth_request s4_application s4_handle) None) (16, [])
  = handleU2FMessage
      (encodeU2FMessage {| Cla := 0x80; Command := 2; Param1 := 7; Param2 := 5 |}
         (auth_request s4_application s4_handle) (Some 256)) (16, []).
Proof.
  apply (unread_fields_are_ignored _ _ (authenticate_header 7)
           {| Cla := 0x80; Command := 2; Param1 := 7; Param2 := 5 |}
           (auth_request s4_application s4_handle) 0 256 (16, []));
    vm_compute; reflexivity.
Defined.

End MoreScenarios.
